(** * Favicon generation script [apps/site/public/images.py]

    The script renders one SVG file to three PNG favicons, renders a 256x256
    intermediate PNG, and packs that intermediate into a multi-resolution ICO
    file, printing a confirmation line after each of the four published
    outputs.

    The script is straight-line effectful code: it reads and writes files and
    prints to the console, and any of its calls may raise, a print included.
    It is embedded here as a program in a state-and-exception monad over a
    small model of the file system and the console.  Besides the effects that
    took place, the model records every effect the script has asked for, so
    that what was attempted and how often can be stated.  The two imaging libraries (CairoSVG for
    rendering, Pillow for the ICO encoder) are not part of the repository;
    their pixel-level work is a parameter of the development, constrained only
    by the size contracts the two libraries document. *)

From Stdlib Require Import ZArith.
From stdpp Require Import gmap strings list fin_maps.

Local Open Scope Z_scope.

(** ** Outcomes of a call *)

(** The ways a call of the script can raise. *)
Inductive failure : Set :=
  | RenderFailure   (* source missing or malformed, or the renderer gave up *)
  | WriteFailure    (* the output path cannot be written *)
  | PackFailure     (* the intermediate cannot be decoded *)
  | ConsoleFailure. (* the console does not take the line *)

Inductive outcome (A : Type) : Type :=
  | Done (a : A)
  | Raised (e : failure).
Arguments Done {A} a.
Arguments Raised {A} e.

(** What the script does to the outside world, in the order it does it: it
    opens a file and reads it, writes a file, or prints a line. *)
Inductive event : Set :=
  | Read (path : string)
  | Write (path : string)
  | Print (line : string).

#[global] Instance event_eq_dec : EqDecision event.
Proof. solve_decision. Defined.

#[global] Instance failure_eq_dec : EqDecision failure.
Proof. solve_decision. Defined.

(** ** Images and files *)

(** Pixel data is opaque: nothing in the script looks inside an image. *)
Record raster (pixels : Type) : Type :=
  Raster { width : Z; height : Z; data : pixels }.
Arguments Raster {pixels} width height data.
Arguments width {pixels} r.
Arguments height {pixels} r.
Arguments data {pixels} r.

Definition dims {pixels} (im : raster pixels) : Z * Z := (width im, height im).

(** A file holds text (such as SVG markup), a PNG image, or an ICO container
    with its embedded frames. *)
Inductive file (pixels : Type) : Type :=
  | FText (content : string)
  | FPng (img : raster pixels)
  | FIco (frames : list (raster pixels)).
Arguments FText {pixels} content.
Arguments FPng {pixels} img.
Arguments FIco {pixels} frames.

(** The world the script runs in: the files of the working directory, the
    paths that refuse a write, the console (whether, having shown some lines,
    it takes one more, and the lines it has shown), and two logs: [history],
    the effects that took place, and [attempts], the effects the script has
    asked for, whether or not they took place. *)
Record world (pixels : Type) : Type := World {
  files : gmap string (file pixels);
  unwritable : gset string;
  console : list string → string → bool;
  stdout : list string;
  history : list event;
  attempts : list event
}.
Arguments World {pixels} files unwritable console stdout history attempts.
Arguments files {pixels} w.
Arguments unwritable {pixels} w.
Arguments console {pixels} w shown line.
Arguments stdout {pixels} w.
Arguments history {pixels} w.
Arguments attempts {pixels} w.

(** ** The imaging libraries

    CairoSVG and Pillow are external to the repository.  What they do to
    pixels is left open; the script only relies on the interface below. *)
Class Imaging (pixels : Type) : Type := {
  (** CairoSVG rendering SVG markup at a requested output width and height;
      [None] when the markup is malformed or the renderer fails. *)
  rasterize : string → Z → Z → option (raster pixels);
  (** Pillow's [copy] followed by [thumbnail(size, LANCZOS)]. *)
  thumbnail : raster pixels → Z * Z → raster pixels
}.

(** The size contracts the two libraries document: a render with explicit
    positive output dimensions has exactly those dimensions, and a square
    image reduced to a smaller square has exactly the requested size. *)
Class ImagingContract {pixels} (lib : Imaging pixels) : Prop := {
  rasterize_size : ∀ src w h img,
    0 < w → 0 < h → rasterize src w h = Some img → dims img = (w, h);
  thumbnail_square : ∀ im s,
    width im = height im → 0 < s → s < width im →
    dims (thumbnail im (s, s)) = (s, s)
}.

Section Script.

Context {pixels : Type} {lib : Imaging pixels}.

Definition boot (fs : gmap string (file pixels)) (locked : gset string)
    (takes : list string → string → bool) : world pixels :=
  {| files := fs; unwritable := locked; console := takes;
     stdout := []; history := []; attempts := [] |}.

(** An effect that was asked for and did not take place. *)
Definition tried (e : event) (w : world pixels) : world pixels :=
  {| files := files w; unwritable := unwritable w; console := console w;
     stdout := stdout w; history := history w;
     attempts := attempts w ++ [e] |}.

Definition log (e : event) (w : world pixels) : world pixels :=
  {| files := files w; unwritable := unwritable w; console := console w;
     stdout := stdout w; history := history w ++ [e];
     attempts := attempts w ++ [e] |}.

Definition store (path : string) (f : file pixels) (w : world pixels)
  : world pixels :=
  {| files := <[path := f]> (files w); unwritable := unwritable w;
     console := console w;
     stdout := stdout w; history := history w ++ [Write path];
     attempts := attempts w ++ [Write path] |}.

Definition echo (line : string) (w : world pixels) : world pixels :=
  {| files := files w; unwritable := unwritable w; console := console w;
     stdout := stdout w ++ [line]; history := history w ++ [Print line];
     attempts := attempts w ++ [Print line] |}.

(** ** The monad of the script *)

Definition io (A : Type) : Type := world pixels → outcome A * world pixels.

#[export] Instance io_ret : MRet io := λ A a w, (Done a, w).

#[export] Instance io_throw : MThrow failure io := λ A e w, (Raised e, w).

(** Sequencing: an exception skips the rest and keeps the effects so far. *)
#[export] Instance io_bind : MBind io := λ A B k m w,
  match m w with
  | (Done a, w') => k a w'
  | (Raised e, w') => (Raised e, w')
  end.

(** [for x in xs: body(x)] *)
Fixpoint for_each {A} (xs : list A) (body : A → io unit) : io unit :=
  match xs with
  | [] => mret tt
  | x :: rest => body x;; for_each rest body
  end.

(** ** File and console primitives *)

Definition read_file (path : string) (missing : failure) : io (file pixels) :=
  λ w,
  match files w !! path with
  | Some f => (Done f, log (Read path) w)
  | None => (Raised missing, tried (Read path) w)
  end.

Definition write_file (path : string) (f : file pixels) : io unit := λ w,
  if decide (path ∈ unwritable w) then (Raised WriteFailure, tried (Write path) w)
  else (Done tt, store path f w).

(** [print(line)]: the line reaches the console, or the console does not
    take it and the call raises. *)
Definition print (line : string) : io unit := λ w,
  if console w (stdout w) line then (Done tt, echo line w)
  else (Raised ConsoleFailure, tried (Print line) w).

(** ** The library calls *)

(** [cairosvg.svg2png(url=, write_to=, output_width=, output_height=)]:
    load and parse the source, render it, then write the PNG. *)
Definition svg2png (url write_to : string) (output_width output_height : Z)
  : io unit :=
  f ← read_file url RenderFailure;
  match f with
  | FText src =>
      match rasterize src output_width output_height with
      | Some img => write_file write_to (FPng img)
      | None => mthrow RenderFailure
      end
  | _ => mthrow RenderFailure
  end.

(** [Image.open(path)]; only the PNG decoder is needed. *)
Definition Image_open (path : string) : io (raster pixels) :=
  f ← read_file path PackFailure;
  match f with
  | FPng img => mret img
  | _ => mthrow PackFailure
  end.

(** The ICO encoder ignores a requested size that exceeds the image or 256. *)
Definition ico_fits (im : raster pixels) (size : Z * Z) : bool :=
  negb ((width im <? size.1) || (height im <? size.2)
        || (256 <? size.1) || (256 <? size.2)).

(** A frame of the requested size: the image itself when it already has that
    size, a downsampled copy otherwise. *)
Definition ico_frame (im : raster pixels) (size : Z * Z) : raster pixels :=
  if decide (dims im = size) then im else thumbnail im size.

Definition ico_frames (im : raster pixels) (sizes : list (Z * Z))
  : list (raster pixels) :=
  ico_frame im <$> filter (λ size, ico_fits im size = true) sizes.

(** [img.save(path, format='ICO', sizes=sizes)] *)
Definition Image_save_ico (im : raster pixels) (path : string)
    (sizes : list (Z * Z)) : io unit :=
  write_file path (FIco (ico_frames im sizes)).

(** ** The script *)

Definition input_svg : string := "favicon.svg".

Definition sizes : list (string * Z) :=
  [ ("favicon-16x16.png", 16);
    ("favicon-32x32.png", 32);
    ("apple-touch-icon.png", 180) ].

(** The f-string [f"Created {filename}"]. *)
Definition created (filename : string) : string := "Created " +:+ filename.

(** Step 2: generate the PNGs. *)
Definition generate_pngs (table : list (string * Z)) : io unit :=
  for_each table (λ '(filename, size),
    svg2png input_svg filename size size;;
    print (created filename)).

(** Step 3, first line: the high-resolution render. *)
Definition render_temp : io unit :=
  svg2png input_svg "temp_256.png" 256 256.

(** Step 3, remaining lines: pack the .ico from the render. *)
Definition pack_ico : io unit :=
  img ← Image_open "temp_256.png";
  Image_save_ico img "favicon.ico" [(16,16); (32,32); (48,48); (256,256)];;
  print "Created favicon.ico".

Definition generate_ico : io unit := render_temp;; pack_ico.

(** The module body, with the size table as a parameter. *)
Definition script (table : list (string * Z)) : io unit :=
  generate_pngs table;; generate_ico.

Definition images_py : io unit := script sizes.

End Script.

(** ** Reading a log *)

(** The lines a sequence of effects sends to the console. *)
Definition printed (evs : list event) : list string :=
  omap (λ e, match e with Print line => Some line | _ => None end) evs.

(** The paths a sequence of effects writes, in order. *)
Definition written (evs : list event) : list string :=
  omap (λ e, match e with Write path => Some path | _ => None end) evs.

(** The effects of one completed pass of the loop body. *)
Definition plan_entry (entry : string * Z) : list event :=
  [Read input_svg; Write entry.1; Print (created entry.1)].

(** The effects of a completed step 2. *)
Definition plan_pngs (table : list (string * Z)) : list event :=
  concat (plan_entry <$> table).

(** The effects of a completed step 3. *)
Definition plan_ico : list event :=
  [Read input_svg; Write "temp_256.png"; Read "temp_256.png";
   Write "favicon.ico"; Print "Created favicon.ico"].

(** A console line names a file when the file's name occurs in it. *)
Fixpoint mentions (name line : string) {struct line} : bool :=
  String.prefix name line ||
  match line with
  | EmptyString => false
  | String _ rest => mentions name rest
  end.

(** How many of the console lines name a file. *)
Definition lines_naming (name : string) (lines : list string) : nat :=
  length (filter (λ line, mentions name line = true) lines).

(** [extends w w' evs]: the world [w'] is [w] after the effects [evs], which
    only add to the console and to the files. *)
Record extends {pixels} (w w' : world pixels) (evs : list event) : Prop := {
  ext_history : history w' = history w ++ evs;
  ext_stdout : stdout w' = stdout w ++ printed evs;
  ext_unwritable : unwritable w' = unwritable w;
  ext_console : console w' = console w;
  ext_frame : ∀ path, path ∉ written evs → files w' !! path = files w !! path;
  ext_written : ∀ path, path ∈ written evs → is_Some (files w' !! path);
  ext_kept : ∀ path, is_Some (files w !! path) → is_Some (files w' !! path)
}.

(** A program all of whose runs, completed or not, extend the world. *)
Definition tracked {pixels A} (m : @io pixels A) : Prop :=
  ∀ w r w', m w = (r, w') → ∃ evs, extends w w' evs.

(** The effects of a completed run of the script. *)
Definition plan (table : list (string * Z)) : list event :=
  plan_pngs table ++ plan_ico.

(** How many effects of the plan a run of [images_py] can stop after: any
    number but eleven, since the intermediate that has just been written can
    always be read back. *)
Definition halts : list nat :=
  [0; 1; 2; 3; 4; 5; 6; 7; 8; 9; 10; 12; 13; 14]%nat.

(** The console takes each of the lines in turn, having shown [shown]. *)
Fixpoint takes_all (takes : list string → string → bool)
    (shown lines : list string) : bool :=
  match lines with
  | [] => true
  | line :: rest => takes shown line && takes_all takes (shown ++ [line]) rest
  end.

(** The world a completed run ends in, given the source and the four
    renders. *)
Definition final_world {pixels} {lib : Imaging pixels}
    (fs : gmap string (file pixels)) (locked : gset string)
    (takes : list string → string → bool)
    (i16 i32 i180 i256 : raster pixels) : world pixels :=
  {| files :=
       <["favicon.ico" :=
           FIco (ico_frames i256 [(16,16); (32,32); (48,48); (256,256)])]>
       (<["temp_256.png" := FPng i256]>
       (<["apple-touch-icon.png" := FPng i180]>
       (<["favicon-32x32.png" := FPng i32]>
       (<["favicon-16x16.png" := FPng i16]> fs))));
     unwritable := locked;
     console := takes;
     stdout := created <$> ["favicon-16x16.png"; "favicon-32x32.png";
                            "apple-touch-icon.png"; "favicon.ico"];
     history := plan sizes;
     attempts := plan sizes |}.

(** What it takes for a run to complete. *)
Definition renders {pixels} {lib : Imaging pixels}
    (fs : gmap string (file pixels)) (locked : gset string)
    (takes : list string → string → bool) (src : string)
    (i16 i32 i180 i256 : raster pixels) : Prop :=
  fs !! input_svg = Some (FText src) ∧
  rasterize src 16 16 = Some i16 ∧
  rasterize src 32 32 = Some i32 ∧
  rasterize src 180 180 = Some i180 ∧
  rasterize src 256 256 = Some i256 ∧
  Forall (λ path, path ∉ locked)
    ["favicon-16x16.png"; "favicon-32x32.png"; "apple-touch-icon.png";
     "temp_256.png"; "favicon.ico"] ∧
  takes_all takes []
    (created <$> ["favicon-16x16.png"; "favicon-32x32.png";
                  "apple-touch-icon.png"; "favicon.ico"]) = true.

(** ** A sample instance of the imaging interface

    Pixels are a tag recording what was rendered and at which width; markup is
    accepted when it opens with an [svg] element. *)
#[export] Instance sample_imaging : Imaging (string * Z) := {|
  rasterize src w h :=
    if String.prefix "<svg" src then Some (Raster w h (src, w)) else None;
  thumbnail im size := Raster size.1 size.2 ((data im).1, size.1)
|}.

Definition sample_fs : gmap string (file (string * Z)) :=
  {[ "favicon.svg" := FText "<svg viewBox='0 0 512 512'/>" ]}.

(** A console that takes every line. *)
Definition open_console : list string → string → bool := λ _ _, true.

(** A console that takes one line and then no more. *)
Definition one_line_console : list string → string → bool :=
  λ shown _, bool_decide (length shown < 1)%nat.

(** A console that takes nothing. *)
Definition closed_console : list string → string → bool := λ _ _, false.

(** A directory in which the second favicon cannot be written. *)
Definition sample_locked : gset string := {[ "favicon-32x32.png" ]}.

(** The sample directory with an unrelated file and stale outputs in it. *)
Definition sample_fs_cluttered : gmap string (file (string * Z)) :=
  <[ "notes.txt" := FText "todo" ]>
  (<[ "favicon.ico" := FText "stale" ]> sample_fs).

(** ** Reasoning about the monad *)

Section Proofs.

Context {pixels : Type} {lib : Imaging pixels}.

Local Abbreviation io := (@io pixels).
Local Abbreviation tracked := (@tracked pixels _).

Implicit Types (w : world pixels) (e : failure) (evs : list event).
Implicit Types (fs : gmap string (file pixels)) (locked : gset string).
Implicit Types (table : list (string * Z)) (path url line : string).
Implicit Types (takes : list string → string → bool).

Lemma bind_run {A B} (m : io A) (k : A → io B) w :
  (m ≫= k) w =
  match m w with
  | (Done a, w') => k a w'
  | (Raised e, w') => (Raised e, w')
  end.
Proof. reflexivity. Qed.

Lemma bind_done {A B} (m : io A) (k : A → io B) w a w1 :
  m w = (Done a, w1) → (m ≫= k) w = k a w1.
Proof. intros Hm. rewrite bind_run, Hm. reflexivity. Qed.

Lemma bind_raised {A B} (m : io A) (k : A → io B) w e w1 :
  m w = (Raised e, w1) → (m ≫= k) w = (Raised e, w1).
Proof. intros Hm. rewrite bind_run, Hm. reflexivity. Qed.

Lemma bind_inv {A B} (m : io A) (k : A → io B) w r w' :
  (m ≫= k) w = (r, w') →
  (∃ a w1, m w = (Done a, w1) ∧ k a w1 = (r, w')) ∨
  (∃ e, m w = (Raised e, w') ∧ r = Raised e).
Proof.
  rewrite bind_run. destruct (m w) as [[a|e] w1]; intros Hk.
  - left. eauto.
  - right. exists e. by inversion Hk.
Qed.

Lemma for_each_app {A} (xs ys : list A) (body : A → io unit) w :
  for_each (xs ++ ys) body w = (for_each xs body;; for_each ys body) w.
Proof.
  revert w. induction xs as [|x xs IH]; intros w; simpl.
  - reflexivity.
  - rewrite !bind_run. destruct (body x w) as [[[]|e] w1]; [|reflexivity].
    rewrite IH. reflexivity.
Qed.

(** ** The primitives *)

Lemma read_file_inv path missing w r w' :
  read_file path missing w = (r, w') →
  (∃ f, files w !! path = Some f ∧ r = Done f ∧ w' = log (Read path) w) ∨
  (files w !! path = None ∧ r = Raised missing ∧ w' = tried (Read path) w).
Proof.
  unfold read_file. destruct (files w !! path) as [f|]; intros [= <- <-]; eauto.
Qed.

Lemma write_file_inv path f w r w' :
  write_file path f w = (r, w') →
  ((path ∉ unwritable w) ∧ r = Done tt ∧ w' = store path f w) ∨
  (path ∈ unwritable w ∧ r = Raised WriteFailure ∧
   w' = tried (Write path) w).
Proof. unfold write_file. case_decide; intros [= <- <-]; eauto. Qed.

Lemma print_inv line w r w' :
  print line w = (r, w') →
  (console w (stdout w) line = true ∧ r = Done tt ∧ w' = echo line w) ∨
  (console w (stdout w) line = false ∧ r = Raised ConsoleFailure ∧
   w' = tried (Print line) w).
Proof.
  unfold print. destruct (console w (stdout w) line); intros [= <- <-]; eauto.
Qed.

(** A completed render read the source as text, rendered it, and wrote the
    result to the requested path. *)
Lemma svg2png_done url path ow oh w w' :
  svg2png url path ow oh w = (Done tt, w') →
  ∃ src img,
    files w !! url = Some (FText src) ∧
    rasterize src ow oh = Some img ∧
    (path ∉ unwritable w) ∧
    w' = store path (FPng img) (log (Read url) w).
Proof.
  intros Hrun. apply bind_inv in Hrun as [(f & w1 & Hread & Hrest)|(e & _ & [=])].
  apply read_file_inv in Hread as [(f' & Hf & [= <-] & ->)|(_ & [=] & _)].
  destruct f as [src| |]; [|by inversion Hrest..].
  destruct (rasterize src ow oh) as [img|] eqn:Himg; [|by inversion Hrest].
  apply write_file_inv in Hrest as [(Hfree & _ & ->)|(_ & [=] & _)].
  by exists src, img.
Qed.

(** A failed render wrote nothing: the source was missing; or it was read and
    the parse or the render failed; or the write of the result was refused. *)
Lemma svg2png_raised url path ow oh w e w' :
  svg2png url path ow oh w = (Raised e, w') →
  (w' = tried (Read url) w ∧ files w !! url = None ∧ e = RenderFailure) ∨
  (w' = log (Read url) w ∧ is_Some (files w !! url) ∧ e = RenderFailure) ∨
  (w' = tried (Write path) (log (Read url) w) ∧ e = WriteFailure ∧
   path ∈ unwritable w).
Proof.
  intros Hrun. apply bind_inv in Hrun as [(f & w1 & Hread & Hrest)|(e' & Hread & [= <-])].
  - apply read_file_inv in Hread as [(f' & Hf & [= <-] & ->)|(_ & [=] & _)].
    assert (is_Some (files w !! url)) by eauto.
    destruct f as [src| |];
      [|inversion Hrest; subst; right; by left..].
    destruct (rasterize src ow oh) as [img|];
      [|inversion Hrest; subst; right; by left].
    apply write_file_inv in Hrest as [(_ & [=] & _)|(Hin & [= <-] & ->)].
    right. by right.
  - apply read_file_inv in Hread as [(f' & _ & [=] & _)|(Hnone & [= <-] & ->)].
    by left.
Qed.

(** What a failed render leaves behind: the same files, console and
    permissions, and a log with at most the read of the source added. *)
Lemma svg2png_raised_world url path ow oh w e w' :
  svg2png url path ow oh w = (Raised e, w') →
  files w' = files w ∧ stdout w' = stdout w ∧
  unwritable w' = unwritable w ∧ console w' = console w ∧
  (history w' = history w ∨ history w' = history w ++ [Read url]) ∧
  (e = RenderFailure ∨ (e = WriteFailure ∧ path ∈ unwritable w)).
Proof.
  intros Hrun.
  apply svg2png_raised in Hrun
    as [(-> & _ & ->)|[(-> & _ & ->)|(-> & -> & Hin)]]; simpl; eauto 10.
Qed.

Lemma svg2png_absent url path ow oh w :
  files w !! url = None →
  svg2png url path ow oh w = (Raised RenderFailure, tried (Read url) w).
Proof.
  intros Hnone. unfold svg2png, read_file. by rewrite bind_run, Hnone.
Qed.

Lemma svg2png_ok url path ow oh w src img :
  files w !! url = Some (FText src) →
  rasterize src ow oh = Some img →
  path ∉ unwritable w →
  svg2png url path ow oh w = (Done tt, store path (FPng img) (log (Read url) w)).
Proof.
  intros Hsrc Himg Hfree. unfold svg2png, read_file, write_file.
  rewrite bind_run, Hsrc, Himg. simpl. by rewrite decide_False.
Qed.

(** ** Every run only extends the world *)

Lemma extends_refl w : extends w w [].
Proof.
  split; simpl; rewrite ?app_nil_r; try done.
  intros path Hin. by apply elem_of_nil in Hin.
Qed.

Lemma extends_trans w w1 w2 evs1 evs2 :
  extends w w1 evs1 → extends w1 w2 evs2 → extends w w2 (evs1 ++ evs2).
Proof.
  intros [Hh1 Hs1 Hu1 Hc1 Hf1 Hw1 Hk1] [Hh2 Hs2 Hu2 Hc2 Hf2 Hw2 Hk2].
  split.
  - by rewrite Hh2, Hh1, app_assoc.
  - unfold printed in *. by rewrite Hs2, Hs1, omap_app, app_assoc.
  - by rewrite Hu2.
  - by rewrite Hc2.
  - intros path Hnot. unfold written in *. rewrite omap_app in Hnot.
    apply not_elem_of_app in Hnot as [Hn1 Hn2]. by rewrite Hf2, Hf1.
  - intros path Hin. unfold written in *. rewrite omap_app in Hin.
    apply elem_of_app in Hin as [Hin|Hin]; auto.
  - auto.
Qed.

Lemma extends_tried w (ev : event) : extends w (tried ev w) [].
Proof.
  split; simpl; rewrite ?app_nil_r; try done.
  intros path Hin. by apply elem_of_nil in Hin.
Qed.

Lemma extends_log_read w path : extends w (log (Read path) w) [Read path].
Proof.
  split; simpl; rewrite ?app_nil_r; try done.
  intros p Hin. by apply elem_of_nil in Hin.
Qed.

Lemma extends_store w path f : extends w (store path f w) [Write path].
Proof.
  split; simpl; rewrite ?app_nil_r; try done.
  - intros p Hnot. apply not_elem_of_cons in Hnot as [Hne _].
    by rewrite lookup_insert_ne.
  - intros p Hin. apply list_elem_of_singleton in Hin as ->.
    rewrite lookup_insert_eq. eauto.
  - intros p Hsome. destruct (decide (path = p)) as [->|Hne].
    + rewrite lookup_insert_eq. eauto.
    + by rewrite lookup_insert_ne.
Qed.

Lemma extends_echo w line : extends w (echo line w) [Print line].
Proof.
  split; simpl; try done.
  intros p Hin. by apply elem_of_nil in Hin.
Qed.

Lemma tracked_ret {A} (a : A) : tracked (mret a : io A).
Proof. intros w r w' [= <- <-]. exists []. apply extends_refl. Qed.

Lemma tracked_throw {A} e : tracked (mthrow e : io A).
Proof. intros w r w' [= <- <-]. exists []. apply extends_refl. Qed.

Lemma tracked_bind {A B} (m : io A) (k : A → io B) :
  tracked m → (∀ a, tracked (k a)) → tracked (m ≫= k).
Proof.
  intros Hm Hk w r w' Hrun.
  apply bind_inv in Hrun as [(a & w1 & Hm1 & Hk1)|(e & Hm1 & _)].
  - destruct (Hm _ _ _ Hm1) as [evs1 H1]. destruct (Hk _ _ _ _ Hk1) as [evs2 H2].
    exists (evs1 ++ evs2). by eapply extends_trans.
  - eauto.
Qed.

Lemma tracked_for_each {A} (xs : list A) (body : A → io unit) :
  (∀ x, tracked (body x)) → tracked (for_each xs body).
Proof.
  intros Hbody. induction xs as [|x xs IH]; simpl.
  - apply tracked_ret.
  - apply tracked_bind; auto.
Qed.

Lemma tracked_read_file path missing : tracked (read_file path missing).
Proof.
  intros w r w' Hrun.
  apply read_file_inv in Hrun as [(f & _ & _ & ->)|(_ & _ & ->)].
  - eexists. apply extends_log_read.
  - eexists. apply extends_tried.
Qed.

Lemma tracked_write_file path f : tracked (write_file path f).
Proof.
  intros w r w' Hrun.
  apply write_file_inv in Hrun as [(_ & _ & ->)|(_ & _ & ->)].
  - eexists. apply extends_store.
  - eexists. apply extends_tried.
Qed.

Lemma tracked_print line : tracked (print line).
Proof.
  intros w r w' Hrun.
  apply print_inv in Hrun as [(_ & _ & ->)|(_ & _ & ->)].
  - eexists. apply extends_echo.
  - eexists. apply extends_tried.
Qed.

Lemma tracked_svg2png url path ow oh : tracked (svg2png url path ow oh).
Proof.
  apply tracked_bind; [apply tracked_read_file|].
  intros [src| |]; try apply tracked_throw.
  destruct (rasterize src ow oh); [apply tracked_write_file|apply tracked_throw].
Qed.

Lemma tracked_Image_open path : tracked (Image_open path).
Proof.
  apply tracked_bind; [apply tracked_read_file|].
  intros [| |]; first [apply tracked_throw | apply tracked_ret].
Qed.

Lemma tracked_generate_pngs table : tracked (generate_pngs table).
Proof.
  apply tracked_for_each. intros [filename size].
  apply tracked_bind; [apply tracked_svg2png | intros; apply tracked_print].
Qed.

Lemma tracked_generate_ico : tracked generate_ico.
Proof.
  apply tracked_bind; [apply tracked_svg2png|]. intros _.
  apply tracked_bind; [apply tracked_Image_open|]. intros img.
  apply tracked_bind; [apply tracked_write_file | intros; apply tracked_print].
Qed.

Lemma tracked_script table : tracked (script table).
Proof.
  apply tracked_bind; [apply tracked_generate_pngs | intros; apply tracked_generate_ico].
Qed.

(** From a fresh start the effects of a run are its whole log. *)
Lemma script_extends table fs locked takes r w' :
  script table (boot fs locked takes) = (r, w') →
  extends (boot fs locked takes) w' (history w').
Proof.
  intros Hrun. destruct (tracked_script _ _ _ _ Hrun) as [evs Hext].
  by rewrite (ext_history _ _ _ Hext).
Qed.

(** ** Step 2: the loop over the size table *)

Lemma generate_pngs_nil w : generate_pngs [] w = (Done tt, w).
Proof. reflexivity. Qed.

Lemma generate_pngs_cons name size table w :
  generate_pngs ((name, size) :: table) w =
  ((svg2png input_svg name size size;; print (created name));;
   generate_pngs table) w.
Proof. reflexivity. Qed.

(** One completed pass of the loop body. *)
Lemma entry_done name size w w' :
  (svg2png input_svg name size size;; print (created name)) w = (Done tt, w') →
  ∃ src img,
    files w !! input_svg = Some (FText src) ∧
    rasterize src size size = Some img ∧
    (name ∉ unwritable w) ∧
    console w (stdout w) (created name) = true ∧
    w' = echo (created name) (store name (FPng img) (log (Read input_svg) w)).
Proof.
  intros Hrun. apply bind_inv in Hrun as [([] & w1 & Hsvg & Hprint)|(e & _ & [=])].
  apply svg2png_done in Hsvg as (src & img & Hsrc & Himg & Hfree & ->).
  apply print_inv in Hprint as [(Htakes & _ & ->)|(_ & [=] & _)].
  by exists src, img.
Qed.

(** A pass of the loop body fails in its render, or else in its print, after
    the entry has been written. *)
Lemma entry_raised name size w e w' :
  (svg2png input_svg name size size;; print (created name)) w = (Raised e, w') →
  svg2png input_svg name size size w = (Raised e, w') ∨
  (∃ src img,
     files w !! input_svg = Some (FText src) ∧
     rasterize src size size = Some img ∧
     e = ConsoleFailure ∧
     console w (stdout w) (created name) = false ∧
     w' = tried (Print (created name))
            (store name (FPng img) (log (Read input_svg) w))).
Proof.
  intros Hrun. apply bind_inv in Hrun as [([] & w1 & Hsvg & Hprint)|(e' & Hsvg & [= <-])];
    [right|by left].
  apply svg2png_done in Hsvg as (src & img & Hsrc & Himg & Hfree & ->).
  apply print_inv in Hprint as [(_ & [=] & _)|(Hno & [= <-] & ->)].
  by exists src, img.
Qed.

(** What a failed pass leaves behind: the console and the permissions as they
    were, no new line, no file changed but possibly the entry's own, and a log
    with an initial part of the pass added, short of its print: up to the
    write when the print failed, up to the read at most otherwise. *)
Lemma entry_raised_world name size w e w' :
  (svg2png input_svg name size size;; print (created name)) w = (Raised e, w') →
  stdout w' = stdout w ∧
  unwritable w' = unwritable w ∧ console w' = console w ∧
  (∀ path, path ≠ name → files w' !! path = files w !! path) ∧
  ∃ tail,
    history w' = history w ++ tail ∧
    ((e = ConsoleFailure ∧ tail = take 2 (plan_entry (name, size))) ∨
     (e ≠ ConsoleFailure ∧ files w' = files w ∧
      (tail = [] ∨ tail = take 1 (plan_entry (name, size))))).
Proof.
  intros Hrun. apply entry_raised in Hrun as [Hsvg|(src & img & _ & _ & -> & _ & ->)].
  - apply svg2png_raised in Hsvg
      as [(-> & _ & ->)|[(-> & _ & ->)|(-> & -> & _)]]; simpl;
      (split; [done|]); (split; [done|]); (split; [done|]); (split; [done|]).
    + exists []. rewrite app_nil_r. split; [done|]. right. eauto.
    + exists [Read input_svg]. split; [done|]. right. eauto.
    + exists [Read input_svg]. split; [done|]. right. eauto.
  - simpl. split; [done|]. split; [done|]. split; [done|]. split.
    + intros path Hne. by rewrite lookup_insert_ne.
    + exists [Read input_svg; Write name]. rewrite <- app_assoc.
      split; [done|]. by left.
Qed.

(** A batch that fails has completed a prefix of the table and failed in the
    pass for the next entry; nothing runs after that. *)
Lemma generate_pngs_stops table w e w' :
  generate_pngs table w = (Raised e, w') →
  ∃ done name size rest w1,
    table = done ++ (name, size) :: rest ∧
    generate_pngs done w = (Done tt, w1) ∧
    (svg2png input_svg name size size;; print (created name)) w1 = (Raised e, w').
Proof.
  revert w. induction table as [|[name size] table IH]; intros w Hrun.
  - inversion Hrun.
  - rewrite generate_pngs_cons in Hrun.
    apply bind_inv in Hrun as [([] & w1 & Hentry & Hrest)|(e' & Hentry & [= <-])].
    + destruct (IH _ Hrest) as (done & n & s & rest & w2 & -> & Hdone & Hfail).
      exists ((name, size) :: done), n, s, rest, w2. split; [done|]. split; [|done].
      rewrite generate_pngs_cons. by rewrite (bind_done _ _ _ _ _ Hentry).
    + by exists [], name, size, table, w.
Qed.

(** The log of a completed batch. *)
Lemma generate_pngs_done_history table w w' :
  generate_pngs table w = (Done tt, w') →
  history w' = history w ++ plan_pngs table ∧
  stdout w' = stdout w ++ (created <$> table.*1) ∧
  unwritable w' = unwritable w.
Proof.
  revert w. induction table as [|[name size] table IH]; intros w Hrun.
  - inversion Hrun. simpl. by rewrite !app_nil_r.
  - rewrite generate_pngs_cons in Hrun.
    apply bind_inv in Hrun as [([] & w1 & Hentry & Hrest)|(e' & _ & [=])].
    apply entry_done in Hentry as (src & img & _ & _ & _ & _ & ->).
    destruct (IH _ Hrest) as (-> & -> & ->). simpl.
    by rewrite <- !app_assoc.
Qed.

(** A completed batch has asked for nothing but what it did. *)
Lemma generate_pngs_done_attempts table w w' :
  generate_pngs table w = (Done tt, w') →
  attempts w' = attempts w ++ plan_pngs table.
Proof.
  revert w. induction table as [|[name size] table IH]; intros w Hrun.
  - inversion Hrun. simpl. by rewrite !app_nil_r.
  - rewrite generate_pngs_cons in Hrun.
    apply bind_inv in Hrun as [([] & w1 & Hentry & Hrest)|(e' & _ & [=])].
    apply entry_done in Hentry as (src & img & _ & _ & _ & _ & ->).
    rewrite (IH _ Hrest). simpl. by rewrite <- !app_assoc.
Qed.

Lemma written_plan_pngs table : written (plan_pngs table) = table.*1.
Proof.
  induction table as [|[name size] table IH]; [done|].
  simpl. f_equal. exact IH.
Qed.

(** The files of a completed batch: every entry of a table with distinct
    names, none of them the source, holds the render of the source at the
    entry's size. *)
Lemma generate_pngs_done_files table w w' :
  NoDup table.*1 →
  input_svg ∉ table.*1 →
  generate_pngs table w = (Done tt, w') →
  ∀ name size, (name, size) ∈ table →
  ∃ src img,
    files w !! input_svg = Some (FText src) ∧
    rasterize src size size = Some img ∧
    files w' !! name = Some (FPng img).
Proof.
  revert w. induction table as [|[name0 size0] table IH]; intros w Hdup Hsrc Hrun name size Hin.
  - by apply elem_of_nil in Hin.
  - rewrite generate_pngs_cons in Hrun.
    apply bind_inv in Hrun as [([] & w1 & Hentry & Hrest)|(e' & _ & [=])].
    apply entry_done in Hentry as (src & img & Hfile & Himg & _ & _ & ->).
    simpl in Hdup, Hsrc. apply NoDup_cons in Hdup as [Hfresh Hdup].
    apply not_elem_of_cons in Hsrc as [Hne Hsrc].
    apply elem_of_cons in Hin as [[= -> ->]|Hin].
    + exists src, img. split; [done|]. split; [done|].
      destruct (tracked_generate_pngs _ _ _ _ Hrest) as [evs Hext].
      destruct (generate_pngs_done_history _ _ _ Hrest) as (Hhist & _ & _).
      rewrite (ext_history _ _ _ Hext) in Hhist. apply app_inv_head in Hhist as ->.
      rewrite (ext_frame _ _ _ Hext) by (by rewrite written_plan_pngs).
      simpl. by rewrite lookup_insert_eq.
    + destruct (IH _ Hdup Hsrc Hrest _ _ Hin) as (src' & img' & Hfile' & Himg' & Hout).
      simpl in Hfile'. rewrite lookup_insert_ne in Hfile' by done.
      by exists src', img'.
Qed.

(** ** Step 3: the high-resolution render and the container *)

(** Every requested size fits a 256x256 image: the three smaller frames are
    downsampled copies and the largest is the image itself. *)
Lemma ico_frames_256 (img : raster pixels) :
  dims img = (256, 256) →
  ico_frames img [(16,16); (32,32); (48,48); (256,256)] =
  [thumbnail img (16,16); thumbnail img (32,32); thumbnail img (48,48); img].
Proof.
  destruct img as [iw ih px]. unfold dims. simpl. intros [= -> ->]. reflexivity.
Qed.

Lemma generate_ico_done w w' :
  generate_ico w = (Done tt, w') →
  ∃ src img,
    files w !! input_svg = Some (FText src) ∧
    rasterize src 256 256 = Some img ∧
    ("temp_256.png" ∉ unwritable w) ∧
    ("favicon.ico" ∉ unwritable w) ∧
    console w (stdout w) "Created favicon.ico" = true ∧
    w' = echo "Created favicon.ico"
           (store "favicon.ico"
              (FIco (ico_frames img [(16,16); (32,32); (48,48); (256,256)]))
              (log (Read "temp_256.png")
                 (store "temp_256.png" (FPng img) (log (Read input_svg) w)))).
Proof.
  intros Hrun. apply bind_inv in Hrun as [([] & w1 & Hsvg & Hpack)|(e & _ & [=])].
  apply svg2png_done in Hsvg as (src & img & Hsrc & Himg & Hfree & ->).
  apply bind_inv in Hpack as [(im & w2 & Hopen & Hsave)|(e & _ & [=])].
  apply bind_inv in Hopen as [(f & w3 & Hread & Hdecode)|(e & _ & [=])].
  apply read_file_inv in Hread as [(f' & Hf & [= <-] & ->)|(_ & [=] & _)].
  simpl in Hf. rewrite lookup_insert_eq in Hf. injection Hf as <-.
  injection Hdecode as <- <-.
  apply bind_inv in Hsave as [([] & w4 & Hwrite & Hprint)|(e & _ & [=])].
  apply write_file_inv in Hwrite as [(Hfree' & _ & ->)|(_ & [=] & _)].
  apply print_inv in Hprint as [(Htakes & _ & ->)|(_ & [=] & _)].
  by exists src, img.
Qed.

(** Step 3 fails in its render; or in the write of the container, after the
    intermediate has been written and read back; or in its print, after the
    container has been written. *)
Lemma generate_ico_raised w e w' :
  generate_ico w = (Raised e, w') →
  svg2png input_svg "temp_256.png" 256 256 w = (Raised e, w') ∨
  (∃ w1, svg2png input_svg "temp_256.png" 256 256 w = (Done tt, w1) ∧
         e = WriteFailure ∧ "favicon.ico" ∈ unwritable w ∧
         w' = tried (Write "favicon.ico") (log (Read "temp_256.png") w1)) ∨
  (∃ src img,
     files w !! input_svg = Some (FText src) ∧
     rasterize src 256 256 = Some img ∧
     e = ConsoleFailure ∧
     console w (stdout w) "Created favicon.ico" = false ∧
     w' = tried (Print "Created favicon.ico")
            (store "favicon.ico"
               (FIco (ico_frames img [(16,16); (32,32); (48,48); (256,256)]))
               (log (Read "temp_256.png")
                  (store "temp_256.png" (FPng img) (log (Read input_svg) w))))).
Proof.
  intros Hrun. apply bind_inv in Hrun as [([] & w1 & Hsvg & Hpack)|(e' & Hsvg & [= <-])];
    [right|by left].
  pose proof Hsvg as Hsvg'.
  apply svg2png_done in Hsvg as (src & img & Hsrc & Himg & Hfree & ->).
  apply bind_inv in Hpack as [(im & w2 & Hopen & Hsave)|(e' & Hopen & [= <-])].
  - apply bind_inv in Hopen as [(f & w3 & Hread & Hdecode)|(e' & _ & [=])].
    apply read_file_inv in Hread as [(f' & Hf & [= <-] & ->)|(_ & [=] & _)].
    simpl in Hf. rewrite lookup_insert_eq in Hf. injection Hf as <-.
    injection Hdecode as <- <-.
    apply bind_inv in Hsave as [([] & w4 & Hwrite & Hprint)|(e' & Hwrite & [= <-])].
    + right.
      apply write_file_inv in Hwrite as [(_ & _ & ->)|(_ & [=] & _)].
      apply print_inv in Hprint as [(_ & [=] & _)|(Hno & [= <-] & ->)].
      by exists src, img.
    + left. eexists. split; [exact Hsvg'|].
      apply write_file_inv in Hwrite as [(_ & [=] & _)|(Hin & [= <-] & ->)].
      done.
  - exfalso. apply bind_inv in Hopen as [(f & w3 & Hread & Hdecode)|(e' & Hread & [= <-])].
    + apply read_file_inv in Hread as [(f' & Hf & [= <-] & ->)|(_ & [=] & _)].
      simpl in Hf. rewrite lookup_insert_eq in Hf. injection Hf as <-.
      inversion Hdecode.
    + apply read_file_inv in Hread as [(f' & _ & [=] & _)|(Hnone & _ & _)].
      simpl in Hnone. by rewrite lookup_insert_eq in Hnone.
Qed.

(** ** The whole script *)

Lemma images_py_done fs locked takes w' :
  images_py (boot fs locked takes) = (Done tt, w') →
  ∃ src i16 i32 i180 i256,
    renders fs locked takes src i16 i32 i180 i256 ∧
    w' = final_world fs locked takes i16 i32 i180 i256.
Proof.
  unfold images_py, script, sizes. intros Hrun.
  apply bind_inv in Hrun as [([] & w3 & Hpngs & Hico)|(e & _ & [=])].
  rewrite generate_pngs_cons in Hpngs.
  apply bind_inv in Hpngs as [([] & w1 & Hentry1 & Hpngs)|(e & _ & [=])].
  apply entry_done in Hentry1 as (src & i16 & Hsrc & H16 & Hfree1 & Ht1 & ->).
  rewrite generate_pngs_cons in Hpngs.
  apply bind_inv in Hpngs as [([] & w2 & Hentry2 & Hpngs)|(e & _ & [=])].
  apply entry_done in Hentry2 as (src2 & i32 & Hsrc2 & H32 & Hfree2 & Ht2 & ->).
  rewrite generate_pngs_cons in Hpngs.
  apply bind_inv in Hpngs as [([] & w2 & Hentry3 & Hpngs)|(e & _ & [=])].
  apply entry_done in Hentry3 as (src3 & i180 & Hsrc3 & H180 & Hfree3 & Ht3 & ->).
  injection Hpngs as <-.
  apply generate_ico_done in Hico
    as (src4 & i256 & Hsrc4 & H256 & Hfree4 & Hfree5 & Ht4 & ->).
  simpl in *. rewrite !lookup_insert_ne in * by done.
  rewrite Hsrc in Hsrc2, Hsrc3, Hsrc4.
  injection Hsrc2 as <-. injection Hsrc3 as <-. injection Hsrc4 as <-.
  exists src, i16, i32, i180, i256. split; [|reflexivity].
  split; [done|]. split; [done|]. split; [done|]. split; [done|]. split; [done|].
  split; [by repeat constructor|].
  simpl. rewrite Ht1, Ht2, Ht3. simpl. rewrite andb_true_r. exact Ht4.
Qed.

Lemma entry_ok name size w src img :
  files w !! input_svg = Some (FText src) →
  rasterize src size size = Some img →
  name ∉ unwritable w →
  console w (stdout w) (created name) = true →
  (svg2png input_svg name size size;; print (created name)) w =
  (Done tt, echo (created name) (store name (FPng img) (log (Read input_svg) w))).
Proof.
  intros Hsrc Himg Hfree Htakes.
  rewrite (bind_done _ _ _ _ _ (svg2png_ok _ _ _ _ _ _ _ Hsrc Himg Hfree)).
  unfold print. simpl. by rewrite Htakes.
Qed.

Lemma generate_ico_ok w src img :
  files w !! input_svg = Some (FText src) →
  rasterize src 256 256 = Some img →
  "temp_256.png" ∉ unwritable w →
  "favicon.ico" ∉ unwritable w →
  console w (stdout w) "Created favicon.ico" = true →
  generate_ico w =
  (Done tt,
   echo "Created favicon.ico"
     (store "favicon.ico"
        (FIco (ico_frames img [(16,16); (32,32); (48,48); (256,256)]))
        (log (Read "temp_256.png")
           (store "temp_256.png" (FPng img) (log (Read input_svg) w))))).
Proof.
  intros Hsrc Himg Hfree1 Hfree2 Htakes. unfold generate_ico, render_temp.
  rewrite (bind_done _ _ _ _ _ (svg2png_ok _ _ _ _ _ _ _ Hsrc Himg Hfree1)).
  unfold pack_ico, Image_open, Image_save_ico, read_file, write_file, print.
  rewrite !bind_run. simpl. rewrite lookup_insert_eq. simpl.
  rewrite bind_run. simpl. rewrite decide_False by done. simpl.
  by rewrite Htakes.
Qed.

Lemma images_py_ok fs locked takes src i16 i32 i180 i256 :
  renders fs locked takes src i16 i32 i180 i256 →
  images_py (boot fs locked takes)
  = (Done tt, final_world fs locked takes i16 i32 i180 i256).
Proof.
  intros (Hsrc & H16 & H32 & H180 & H256 & Hfree & Htakes).
  apply Forall_cons in Hfree as [Hf1 Hfree]. apply Forall_cons in Hfree as [Hf2 Hfree].
  apply Forall_cons in Hfree as [Hf3 Hfree]. apply Forall_cons in Hfree as [Hf4 Hfree].
  apply Forall_cons in Hfree as [Hf5 _].
  simpl in Htakes. rewrite !andb_true_iff in Htakes.
  destruct Htakes as (Ht1 & Ht2 & Ht3 & Ht4 & _).
  unfold images_py, script, sizes.
  erewrite bind_done; cycle 1.
  { rewrite generate_pngs_cons. erewrite bind_done; cycle 1.
    { eapply entry_ok; [exact Hsrc|exact H16|done|exact Ht1]. }
    rewrite generate_pngs_cons. erewrite bind_done; cycle 1.
    { eapply entry_ok; [|exact H32|done|exact Ht2].
      simpl. by rewrite lookup_insert_ne. }
    rewrite generate_pngs_cons. erewrite bind_done; cycle 1.
    { eapply entry_ok; [|exact H180|done|exact Ht3].
      simpl. by rewrite !lookup_insert_ne. }
    apply generate_pngs_nil. }
  erewrite generate_ico_ok; [reflexivity| |exact H256|done|done|exact Ht4].
  simpl. by rewrite !lookup_insert_ne.
Qed.

Local Ltac halt_kind :=
  split; [done|];
  split; [ first [ by intros _; compute_done
                 | intros [=] ]
         | first [ done
                 | intros Hin; exfalso; revert Hin; compute_done ] ].

Local Ltac halt_at n Hhist :=
  exists n; simpl; rewrite Hhist;
  split; [compute_done | split; [reflexivity | halt_kind]].

Local Ltac halt_here n :=
  exists n; simpl;
  split; [compute_done | split; [reflexivity | halt_kind]].

(** Every run, completed or not, performs an initial segment of the plan and
    stops at one of the [halts]; it completes exactly when it performs the
    whole plan, and it stops right after a write exactly when the console did
    not take the confirmation of that write. *)
Lemma images_py_halts fs locked takes r w' :
  images_py (boot fs locked takes) = (r, w') →
  ∃ n, n ∈ halts ∧ history w' = take n (plan sizes) ∧
       (r = Done tt ↔ n = 14%nat) ∧
       (r = Raised ConsoleFailure ↔ n ∈ [2; 5; 8; 13]%nat).
Proof.
  unfold images_py, script. intros Hrun.
  apply bind_inv in Hrun as [([] & w1 & Hpngs & Hico)|(e & Hpngs & ->)].
  - destruct (generate_pngs_done_history _ _ _ Hpngs) as (Hhist & _ & _).
    simpl in Hhist. destruct r as [[]|e].
    + apply generate_ico_done in Hico as (src & img & _ & _ & _ & _ & _ & ->).
      halt_at 14%nat Hhist.
    + apply generate_ico_raised in Hico
        as [Hsvg|[(w2 & Hsvg & -> & _ & ->)|(src & img & _ & _ & -> & _ & ->)]].
      * apply svg2png_raised in Hsvg
          as [(-> & _ & ->)|[(-> & _ & ->)|(-> & -> & _)]].
        -- halt_at 9%nat Hhist.
        -- halt_at 10%nat Hhist.
        -- halt_at 10%nat Hhist.
      * apply svg2png_done in Hsvg as (src & img & _ & _ & _ & ->).
        halt_at 12%nat Hhist.
      * halt_at 13%nat Hhist.
  - apply generate_pngs_stops in Hpngs
      as (done & name & size & rest & w1 & Htable & Hdone & Hentry).
    destruct (generate_pngs_done_history _ _ _ Hdone) as (Hhist & _ & _).
    simpl in Hhist.
    apply entry_raised_world in Hentry
      as (_ & _ & _ & _ & tail & -> & Hkind).
    rewrite Hhist. clear Hhist. unfold sizes in Htable.
    destruct done as [|d1 [|d2 [|d3 done]]]; simplify_eq/=;
      [..|by destruct done];
      destruct Hkind as [(-> & ->)|(Hne & _ & [->| ->])].
    + halt_here 2%nat.
    + exists 0%nat. split; [compute_done|]. split; [done|]. split; [done|].
      split; [by intros [= ->]|intros Hin; exfalso; revert Hin; compute_done].
    + exists 1%nat. split; [compute_done|]. split; [done|]. split; [done|].
      split; [by intros [= ->]|intros Hin; exfalso; revert Hin; compute_done].
    + halt_here 5%nat.
    + exists 3%nat. split; [compute_done|]. split; [done|]. split; [done|].
      split; [by intros [= ->]|intros Hin; exfalso; revert Hin; compute_done].
    + exists 4%nat. split; [compute_done|]. split; [done|]. split; [done|].
      split; [by intros [= ->]|intros Hin; exfalso; revert Hin; compute_done].
    + halt_here 8%nat.
    + exists 6%nat. split; [compute_done|]. split; [done|]. split; [done|].
      split; [by intros [= ->]|intros Hin; exfalso; revert Hin; compute_done].
    + exists 7%nat. split; [compute_done|]. split; [done|]. split; [done|].
      split; [by intros [= ->]|intros Hin; exfalso; revert Hin; compute_done].
Qed.

(** ** The claims *)

Context {contract : ImagingContract lib}.

Lemma sizes_names_distinct : NoDup sizes.*1.
Proof. compute_done. Qed.

Lemma sizes_positive name size : (name, size) ∈ sizes → 0 < size.
Proof.
  unfold sizes. rewrite !elem_of_cons, elem_of_nil.
  intros [[= _ ->]|[[= _ ->]|[[= _ ->]|[]]]]; lia.
Qed.

(** C1: when step 2 (Operation A) completes, every entry [(name, size)] of the
    size table has left under [name] a PNG whose width and height both equal
    [size]; the files written are exactly the names of the table, each once
    and in table order; and no other file has changed. *)
Theorem C1_batch_rasterize_sizes fs locked takes w1 :
  generate_pngs sizes (boot fs locked takes) = (Done tt, w1) →
  (∀ name size, (name, size) ∈ sizes →
     ∃ img, files w1 !! name = Some (FPng img) ∧
            width img = size ∧ height img = size) ∧
  written (history w1) =
    ["favicon-16x16.png"; "favicon-32x32.png"; "apple-touch-icon.png"] ∧
  (∀ path, path ∉ sizes.*1 → files w1 !! path = fs !! path).
Proof.
  intros Hrun.
  destruct (generate_pngs_done_history _ _ _ Hrun) as (Hhist & _ & _).
  simpl in Hhist. split; [|split].
  - intros name size Hin.
    destruct (generate_pngs_done_files _ _ _ sizes_names_distinct
                ltac:(compute_done) Hrun _ _ Hin)
      as (src & img & _ & Himg & Hfile).
    exists img. split; [done|].
    pose proof (sizes_positive _ _ Hin) as Hpos.
    by injection (rasterize_size _ _ _ _ Hpos Hpos Himg).
  - by rewrite Hhist.
  - intros path Hnot.
    destruct (tracked_generate_pngs _ _ _ _ Hrun) as [evs Hext].
    pose proof (ext_history _ _ _ Hext) as Hevs. simpl in Hevs.
    rewrite Hhist in Hevs. subst evs.
    rewrite (ext_frame _ _ _ Hext); [done|]. by rewrite written_plan_pngs.
Qed.

(** The frames packed from a 256x256 image have the four requested sizes. *)
Lemma ico_frames_dims (img : raster pixels) :
  dims img = (256, 256) →
  dims <$> ico_frames img [(16,16); (32,32); (48,48); (256,256)] =
  [(16,16); (32,32); (48,48); (256,256)].
Proof.
  intros Hdims. rewrite (ico_frames_256 _ Hdims).
  assert (width img = height img ∧ width img = 256) as [Hsq Hw].
  { by injection Hdims as -> ->. }
  simpl. rewrite !thumbnail_square by lia. by rewrite Hdims.
Qed.

(** C2: whatever size table step 2 is run with, a completed run leaves in
    "favicon.ico" a container whose embedded frames are exactly 16x16, 32x32,
    48x48 and 256x256. *)
Theorem C2_ico_resolutions_fixed table fs locked takes w' :
  script table (boot fs locked takes) = (Done tt, w') →
  ∃ frames,
    files w' !! "favicon.ico" = Some (FIco frames) ∧
    dims <$> frames = [(16,16); (32,32); (48,48); (256,256)].
Proof.
  unfold script. intros Hrun.
  apply bind_inv in Hrun as [([] & w1 & _ & Hico)|(e & _ & [=])].
  apply generate_ico_done in Hico as (src & img & _ & Himg & _ & _ & _ & ->).
  eexists. split.
  - simpl. apply lookup_insert_eq.
  - apply ico_frames_dims. by eapply rasterize_size; [..|exact Himg].
Qed.

Lemma written_app evs1 evs2 : written (evs1 ++ evs2) = written evs1 ++ written evs2.
Proof. apply omap_app. Qed.

(** C3: with the source absent the run raises a render failure having asked
    for one thing only, the read of the source: no file is created or changed,
    no write is asked for, nothing is printed.  When the batch fails, it fails
    in the pass for some entry after completing the passes before it, and the
    whole run stops there with that failure.  The console shows the lines of
    the earlier entries and no other.  Each earlier entry still holds its PNG.
    The log of what was asked for is the earlier passes followed by an initial
    part of the failing pass, each of its effects asked for once: the read
    when the source is missing or does not render, the read and the write when
    the write is refused, the read, the write and the print when the console
    does not take the line.  Only in the last case has the failing entry's
    file been written; every other file is as it was. *)
Theorem C3_failure_stops_run fs locked takes :
  (fs !! input_svg = None →
   images_py (boot fs locked takes)
   = (Raised RenderFailure, tried (Read input_svg) (boot fs locked takes))) ∧
  (∀ e w', generate_pngs sizes (boot fs locked takes) = (Raised e, w') →
     ∃ done name size rest asked tail,
       sizes = done ++ (name, size) :: rest ∧
       images_py (boot fs locked takes) = (Raised e, w') ∧
       stdout w' = created <$> done.*1 ∧
       attempts w' = plan_pngs done ++ asked ∧
       history w' = plan_pngs done ++ tail ∧
       ((e = RenderFailure ∧ asked = [Read input_svg] ∧
         (tail = [] ∨ tail = [Read input_svg])) ∨
        (e = WriteFailure ∧ asked = [Read input_svg; Write name] ∧
         tail = [Read input_svg]) ∨
        (e = ConsoleFailure ∧
         asked = [Read input_svg; Write name; Print (created name)] ∧
         tail = [Read input_svg; Write name])) ∧
       (∀ n s, (n, s) ∈ done →
          ∃ img, files w' !! n = Some (FPng img) ∧ dims img = (s, s)) ∧
       (∀ path, path ∉ done.*1 → path ≠ name → files w' !! path = fs !! path) ∧
       (e ≠ ConsoleFailure → files w' !! name = fs !! name)).
Proof.
  split.
  - intros Hnone. apply bind_raised. unfold sizes. rewrite generate_pngs_cons.
    do 2 apply bind_raised. by apply svg2png_absent.
  - intros e w' Hrun.
    destruct (generate_pngs_stops _ _ _ _ Hrun)
      as (done & name & size & rest & w1 & Htable & Hdone & Hentry).
    destruct (generate_pngs_done_history _ _ _ Hdone) as (Hhist & Hout & _).
    pose proof (generate_pngs_done_attempts _ _ _ Hdone) as Hasked.
    simpl in Hhist, Hout, Hasked.
    destruct (tracked_generate_pngs _ _ _ _ Hdone) as [evs Hext].
    pose proof (ext_history _ _ _ Hext) as Hevs. simpl in Hevs.
    rewrite Hhist in Hevs. subst evs.
    assert (NoDup done.*1 ∧ (input_svg ∉ done.*1) ∧ (name ∉ done.*1) ∧
            ∀ n s, (n, s) ∈ done → 0 < s)
      as (Hdup & Hsrc & Hfresh & Hpos).
    { pose proof sizes_names_distinct as Hnd. rewrite Htable, fmap_app in Hnd.
      apply NoDup_app in Hnd as (Hnd & Hdisj & _). split; [done|]. split; [|split].
      - assert (input_svg ∉ sizes.*1) as Hbad by compute_done.
        intros Hin. apply Hbad. rewrite Htable, fmap_app. apply elem_of_app. by left.
      - intros Hin. apply (Hdisj _ Hin). simpl. by left.
      - intros n s Hin. apply (sizes_positive n). rewrite Htable.
        apply elem_of_app. by left. }
    assert (∀ n s, (n, s) ∈ done →
              ∃ img, files w1 !! n = Some (FPng img) ∧ dims img = (s, s)) as Hfiles.
    { intros n s Hin.
      destruct (generate_pngs_done_files _ _ _ Hdup Hsrc Hdone _ _ Hin)
        as (src & img & _ & Himg & Hfile).
      exists img. split; [done|].
      by eapply rasterize_size; [..|exact Himg]; eapply Hpos. }
    assert (∀ path, path ∉ done.*1 → files w1 !! path = fs !! path) as Hframe.
    { intros path Hnot. rewrite (ext_frame _ _ _ Hext); [done|].
      by rewrite written_plan_pngs. }
    assert (∀ n s, (n, s) ∈ done → n ≠ name) as Hother.
    { intros n s Hin ->. apply Hfresh. apply list_elem_of_fmap.
      by exists (name, s). }
    pose proof (bind_raised (generate_pngs sizes) (λ _, generate_ico) _ _ _ Hrun)
      as Hwhole.
    apply entry_raised in Hentry as [Hsvg|(src & img & _ & _ & -> & _ & ->)].
    + apply svg2png_raised in Hsvg
        as [(-> & _ & ->)|[(-> & _ & ->)|(-> & -> & _)]]; simpl;
        rewrite ?Hhist, ?Hout, ?Hasked.
      * exists done, name, size, rest, [Read input_svg], [].
        rewrite app_nil_r. repeat (split; [done|]).
        split; [left; eauto|]. repeat split; eauto.
      * exists done, name, size, rest, [Read input_svg], [Read input_svg].
        repeat (split; [done|]).
        split; [left; eauto|]. repeat split; eauto.
      * exists done, name, size, rest, [Read input_svg; Write name], [Read input_svg].
        rewrite <- !app_assoc. repeat (split; [done|]).
        split; [right; left; eauto|]. repeat split; eauto.
    + simpl. rewrite ?Hhist, ?Hout, ?Hasked.
      exists done, name, size, rest,
        [Read input_svg; Write name; Print (created name)],
        [Read input_svg; Write name].
      rewrite <- !app_assoc. repeat (split; [done|]).
      split; [right; right; eauto|]. split; [|split].
      * intros n s Hin. rewrite lookup_insert_ne by (symmetry; by eapply Hother).
        by apply Hfiles.
      * intros path Hnot Hne. rewrite lookup_insert_ne by done. by apply Hframe.
      * done.
Qed.

(** C4: a completed run performs its effects in this order: for each entry
    of the size table in turn, the render of the entry and then its
    confirmation; then the 256x256 render; then the read-back of that render,
    the write of the container and its confirmation.  The console shows the
    three entry lines in table order followed by the container line. *)
Theorem C4_sequential_order fs locked takes w' :
  images_py (boot fs locked takes) = (Done tt, w') →
  history w' =
    [ Read "favicon.svg"; Write "favicon-16x16.png";
      Print "Created favicon-16x16.png";
      Read "favicon.svg"; Write "favicon-32x32.png";
      Print "Created favicon-32x32.png";
      Read "favicon.svg"; Write "apple-touch-icon.png";
      Print "Created apple-touch-icon.png";
      Read "favicon.svg"; Write "temp_256.png";
      Read "temp_256.png"; Write "favicon.ico";
      Print "Created favicon.ico" ] ∧
  stdout w' =
    [ "Created favicon-16x16.png"; "Created favicon-32x32.png";
      "Created apple-touch-icon.png"; "Created favicon.ico" ].
Proof.
  intros Hrun.
  apply images_py_done in Hrun as (src & i16 & i32 & i180 & i256 & _ & ->).
  split; reflexivity.
Qed.

(** The console of a run from a fresh start is what its log printed. *)
Lemma images_py_stdout fs locked takes r w' :
  images_py (boot fs locked takes) = (r, w') → stdout w' = printed (history w').
Proof. intros Hrun. apply (ext_stdout _ _ _ (script_extends _ _ _ _ _ _ Hrun)). Qed.

Local Ltac each_halt Hn :=
  unfold halts in Hn;
  repeat (apply elem_of_cons in Hn as [->|Hn]);
  [..|by apply elem_of_nil in Hn].

Local Ltac each_member Hin :=
  repeat (apply elem_of_cons in Hin as [->|Hin]);
  [..|by apply elem_of_nil in Hin].

(** C5, as amended: in every run that does not stop on a line the console does
    not take, completed or not, each file the run has written other than the
    intermediate "temp_256.png" is named by exactly one console line.  In a
    run that stops on such a line, the file written last is named by no line
    and each file written before it, other than the intermediate, by exactly
    one.  No console line ever names the intermediate. *)
Theorem C5_one_line_per_published_output fs locked takes r w' :
  images_py (boot fs locked takes) = (r, w') →
  (r ≠ Raised ConsoleFailure →
   ∀ path, path ∈ written (history w') → path ≠ "temp_256.png" →
     lines_naming path (stdout w') = 1%nat) ∧
  (r = Raised ConsoleFailure →
   ∃ before last,
     written (history w') = before ++ [last] ∧
     lines_naming last (stdout w') = 0%nat ∧
     ∀ path, path ∈ before → path ≠ "temp_256.png" →
       lines_naming path (stdout w') = 1%nat) ∧
  lines_naming "temp_256.png" (stdout w') = 0%nat.
Proof.
  intros Hrun. rewrite (images_py_stdout _ _ _ _ _ Hrun).
  destruct (images_py_halts _ _ _ _ _ Hrun) as (n & Hn & -> & _ & Hkind).
  split; [|split].
  - intros Hr path Hin Hne.
    assert (n ∉ [2; 5; 8; 13]%nat) as Hnot by (by rewrite <- Hkind).
    clear Hkind Hr.
    each_halt Hn; try (by exfalso; apply Hnot; compute_done);
      simpl in Hin; each_member Hin; done.
  - intros Hr. apply Hkind in Hr. clear Hkind Hn.
    repeat (apply elem_of_cons in Hr as [->|Hr]);
      [..|by apply elem_of_nil in Hr].
    + exists [], "favicon-16x16.png". split; [done|]. split; [done|].
      intros path Hin. by apply elem_of_nil in Hin.
    + exists ["favicon-16x16.png"], "favicon-32x32.png".
      split; [done|]. split; [done|].
      intros path Hin _. each_member Hin. done.
    + exists ["favicon-16x16.png"; "favicon-32x32.png"], "apple-touch-icon.png".
      split; [done|]. split; [done|].
      intros path Hin _. each_member Hin; done.
    + exists ["favicon-16x16.png"; "favicon-32x32.png"; "apple-touch-icon.png";
              "temp_256.png"], "favicon.ico".
      split; [done|]. split; [done|].
      intros path Hin Hne. each_member Hin; done.
  - clear Hkind. each_halt Hn; reflexivity.
Qed.

Lemma final_world_source fs locked takes (i16 i32 i180 i256 : raster pixels) :
  files (final_world fs locked takes i16 i32 i180 i256) !! input_svg
  = fs !! input_svg.
Proof. simpl. by rewrite !lookup_insert_ne. Qed.

(** C6: the outputs of a completed run are a function of the source alone.
    Any other completed run whose source has the same content, whatever else
    its directory holds, ends with the same content in every output file; and
    running the script again on the directory the first run left behind
    completes and leaves every file as it was. *)
Theorem C6_rendering_deterministic fs locked takes w1 :
  images_py (boot fs locked takes) = (Done tt, w1) →
  (∀ fs2 locked2 takes2 w2,
     fs2 !! input_svg = fs !! input_svg →
     images_py (boot fs2 locked2 takes2) = (Done tt, w2) →
     ∀ path, path ∈ written (history w1) → files w2 !! path = files w1 !! path) ∧
  (∃ w2, images_py (boot (files w1) (unwritable w1) (console w1)) = (Done tt, w2) ∧
         files w2 = files w1).
Proof.
  intros Hrun.
  apply images_py_done in Hrun
    as (src & i16 & i32 & i180 & i256 & Hrenders & ->).
  pose proof Hrenders as (Hsrc & H16 & H32 & H180 & H256 & Hfree & Htakes).
  split.
  - intros fs2 locked2 takes2 w2 Hsame Hrun2.
    apply images_py_done in Hrun2
      as (src2 & j16 & j32 & j180 & j256 & (Hsrc2 & J16 & J32 & J180 & J256 & _) & ->).
    rewrite Hsame, Hsrc in Hsrc2. injection Hsrc2 as <-.
    rewrite H16 in J16. rewrite H32 in J32. rewrite H180 in J180. rewrite H256 in J256.
    simplify_eq. intros path Hin. simpl in Hin.
    each_member Hin; simpl; by rewrite !lookup_insert.
  - eexists. split.
    + apply images_py_ok with (src := src). unfold renders.
      by rewrite final_world_source.
    + simpl. apply map_eq. intros path. rewrite !lookup_insert.
      repeat case_decide; done.
Qed.

Lemma generate_pngs_writes table w r w' :
  generate_pngs table w = (r, w') →
  ∃ evs, extends w w' evs ∧ ∀ path, path ∈ written evs → path ∈ table.*1.
Proof.
  intros Hrun. destruct (tracked_generate_pngs _ _ _ _ Hrun) as [evs Hext].
  exists evs. split; [done|]. pose proof (ext_history _ _ _ Hext) as Hevs.
  destruct r as [[]|e].
  - destruct (generate_pngs_done_history _ _ _ Hrun) as (Hhist & _ & _).
    rewrite Hhist in Hevs. apply app_inv_head in Hevs as <-.
    by rewrite written_plan_pngs.
  - destruct (generate_pngs_stops _ _ _ _ Hrun)
      as (done & name & size & rest & w1 & -> & Hdone & Hentry).
    destruct (generate_pngs_done_history _ _ _ Hdone) as (Hhist & _ & _).
    apply entry_raised_world in Hentry as (_ & _ & _ & _ & tail & Hw' & Hkind).
    rewrite Hhist, <- app_assoc in Hw'. rewrite Hw' in Hevs.
    apply app_inv_head in Hevs as <-.
    intros path. rewrite written_app, written_plan_pngs, !fmap_app.
    intros [Hin|Hin]%elem_of_app; apply elem_of_app; [by left|right].
    destruct Hkind as [(_ & ->)|(_ & _ & [->| ->])]; simpl in Hin.
    + apply list_elem_of_singleton in Hin as ->. simpl. by left.
    + by apply elem_of_nil in Hin.
    + by apply elem_of_nil in Hin.
Qed.

(** C7: the name "temp_256.png" is none of the names of the size table.  A
    completed run has written it, and in every run that has written it,
    whether or not the packing that follows succeeds, it holds at the end of
    the run the 256x256 render of the source. *)
Theorem C7_temp_render_persists fs locked takes r w' :
  images_py (boot fs locked takes) = (r, w') →
  ("temp_256.png" ∉ sizes.*1) ∧
  (r = Done tt → "temp_256.png" ∈ written (history w')) ∧
  ("temp_256.png" ∈ written (history w') →
   ∃ src img,
     fs !! input_svg = Some (FText src) ∧
     rasterize src 256 256 = Some img ∧
     width img = 256 ∧ height img = 256 ∧
     files w' !! "temp_256.png" = Some (FPng img)).
Proof.
  intros Hrun. assert ("temp_256.png" ∉ sizes.*1) as Hfresh by compute_done.
  split; [done|]. split.
  - intros ->.
    apply images_py_done in Hrun as (src & i16 & i32 & i180 & i256 & _ & ->).
    compute_done.
  - intros Hin. unfold images_py, script in Hrun.
    apply bind_inv in Hrun as [([] & w1 & Hpngs & Hico)|(e & Hpngs & ->)].
    + destruct (generate_pngs_writes _ _ _ _ Hpngs) as (evs & Hext & Hevs).
      assert (files w1 !! input_svg = fs !! input_svg) as Hsame.
      { apply (ext_frame _ _ _ Hext). intros Hbad. apply Hevs in Hbad.
        revert Hbad. compute_done. }
      assert ("temp_256.png" ∉ written (history w1)) as Hnot.
      { rewrite (ext_history _ _ _ Hext). simpl. intros Hbad. by apply Hevs in Hbad. }
      assert (∀ src img, files w1 !! input_svg = Some (FText src) →
                rasterize src 256 256 = Some img →
                fs !! input_svg = Some (FText src) ∧
                rasterize src 256 256 = Some img ∧
                width img = 256 ∧ height img = 256) as Hgood.
      { intros src img Hsrc Himg. rewrite <- Hsame.
        assert (dims img = (256, 256)) as Hdims
          by (by eapply rasterize_size; [..|exact Himg]).
        injection Hdims as Hw Hh. done. }
      destruct r as [[]|e].
      * apply generate_ico_done in Hico as (src & img & Hsrc & Himg & _ & _ & _ & ->).
        exists src, img. destruct (Hgood _ _ Hsrc Himg) as (? & ? & ? & ?).
        repeat split; try done. simpl.
        by rewrite lookup_insert_ne, lookup_insert_eq.
      * apply generate_ico_raised in Hico
          as [Hsvg|[(w2 & Hsvg & _ & _ & ->)|(src & img & Hsrc & Himg & _ & _ & ->)]].
        -- exfalso. apply Hnot.
           apply svg2png_raised_world in Hsvg as (_ & _ & _ & _ & [Hh|Hh] & _);
             rewrite Hh in Hin; [done|].
           by rewrite written_app, app_nil_r in Hin.
        -- apply svg2png_done in Hsvg as (src & img & Hsrc & Himg & _ & ->).
           exists src, img. destruct (Hgood _ _ Hsrc Himg) as (? & ? & ? & ?).
           repeat split; try done. simpl. by rewrite lookup_insert_eq.
        -- exists src, img. destruct (Hgood _ _ Hsrc Himg) as (? & ? & ? & ?).
           repeat split; try done. simpl.
           by rewrite lookup_insert_ne, lookup_insert_eq.
    + exfalso. destruct (generate_pngs_writes _ _ _ _ Hpngs) as (evs & Hext & Hevs).
      apply Hfresh, Hevs. by rewrite (ext_history _ _ _ Hext) in Hin.
Qed.

(** C8: in every run, completed or not, the source file ends as it began; no
    path is written twice; every path written is on disk at the end; no file
    that was on disk at the start has disappeared; and every file not written
    is unchanged.  A completed run has written exactly its five outputs. *)
Theorem C8_source_read_only_outputs_written_once fs locked takes r w' :
  images_py (boot fs locked takes) = (r, w') →
  files w' !! input_svg = fs !! input_svg ∧
  NoDup (written (history w')) ∧
  (∀ path, path ∈ written (history w') → is_Some (files w' !! path)) ∧
  (∀ path, is_Some (fs !! path) → is_Some (files w' !! path)) ∧
  (∀ path, path ∉ written (history w') → files w' !! path = fs !! path) ∧
  (r = Done tt →
   written (history w') =
     ["favicon-16x16.png"; "favicon-32x32.png"; "apple-touch-icon.png";
      "temp_256.png"; "favicon.ico"]).
Proof.
  intros Hrun. pose proof (script_extends _ _ _ _ _ _ Hrun) as Hext.
  destruct (images_py_halts _ _ _ _ _ Hrun) as (n & Hn & Hhist & Hdone & _).
  split; [|split; [|split; [|split; [|split]]]].
  - apply (ext_frame _ _ _ Hext). rewrite Hhist. each_halt Hn; compute_done.
  - rewrite Hhist. each_halt Hn; compute_done.
  - apply (ext_written _ _ _ Hext).
  - apply (ext_kept _ _ _ Hext).
  - apply (ext_frame _ _ _ Hext).
  - intros Hr. apply Hdone in Hr as ->. by rewrite Hhist.
Qed.

(** C9: after a completed run the container "favicon.ico" is built from the
    image held by "temp_256.png", the 256x256 render of step 3: its 16, 32
    and 48 pixel frames are downsampled copies of that image and its last
    frame is the image itself.  The run ends by writing the intermediate,
    reading it back, writing the container and confirming it. *)
Theorem C9_container_from_temp fs locked takes w' :
  images_py (boot fs locked takes) = (Done tt, w') →
  ∃ img,
    files w' !! "temp_256.png" = Some (FPng img) ∧
    dims img = (256, 256) ∧
    files w' !! "favicon.ico" =
      Some (FIco [thumbnail img (16,16); thumbnail img (32,32);
                  thumbnail img (48,48); img]) ∧
    dims <$> [thumbnail img (16,16); thumbnail img (32,32); thumbnail img (48,48)]
      = [(16,16); (32,32); (48,48)] ∧
    ∃ before,
      history w' =
        before ++ [Write "temp_256.png"; Read "temp_256.png";
                   Write "favicon.ico"; Print "Created favicon.ico"].
Proof.
  intros Hrun.
  apply images_py_done in Hrun
    as (src & i16 & i32 & i180 & i256 & (_ & _ & _ & _ & H256 & _) & ->).
  assert (dims i256 = (256, 256)) as Hdims
    by (by eapply rasterize_size; [..|exact H256]).
  assert (width i256 = height i256 ∧ width i256 = 256) as [Hsq Hw].
  { by injection Hdims as -> ->. }
  exists i256. split; [|split; [done|split; [|split]]].
  - simpl. by rewrite lookup_insert_ne, lookup_insert_eq.
  - simpl. by rewrite lookup_insert_eq, (ico_frames_256 _ Hdims).
  - simpl. by rewrite !thumbnail_square by lia.
  - by exists (take 10 (plan sizes)).
Qed.

(** C10: in every run, completed or not, a confirmation line for a file is on
    the console only if the run has written that file and the file is on disk
    at the end; and wherever the log shows the confirmation of a file, it
    shows the write of that file earlier. *)
Theorem C10_confirmation_follows_write fs locked takes r w' :
  images_py (boot fs locked takes) = (r, w') →
  ∀ name,
    (created name ∈ stdout w' →
     name ∈ written (history w') ∧ is_Some (files w' !! name)) ∧
    (∀ i, history w' !! i = Some (Print (created name)) →
       ∃ j, (j < i)%nat ∧ history w' !! j = Some (Write name)).
Proof.
  intros Hrun name. pose proof (script_extends _ _ _ _ _ _ Hrun) as Hext.
  rewrite (images_py_stdout _ _ _ _ _ Hrun).
  destruct (images_py_halts _ _ _ _ _ Hrun) as (n & Hn & Hhist & _).
  split.
  - intros Hline.
    assert (name ∈ written (history w')) as Hin.
    { rewrite Hhist in *. clear Hext Hhist Hrun.
      each_halt Hn; simpl in Hline;
        repeat (apply elem_of_cons in Hline as [Heq|Hline];
                [cbv [created String.append] in Heq; simplify_eq; compute_done|]);
        by apply elem_of_nil in Hline. }
    split; [done|]. by apply (ext_written _ _ _ Hext).
  - intros i Hi. rewrite Hhist in *. clear Hext Hhist Hrun.
    exists (pred i).
    each_halt Hn; simpl in Hi;
      repeat (destruct i as [|i]; simpl in Hi;
              [ cbv [created String.append] in Hi; simplify_eq;
                (split; [simpl; lia|reflexivity])
              | try discriminate Hi ]).
    all: by rewrite lookup_nil in Hi.
Qed.

(** ** Beyond the fixed size table *)

Lemma plan_pngs_app table1 table2 :
  plan_pngs (table1 ++ table2) = plan_pngs table1 ++ plan_pngs table2.
Proof. unfold plan_pngs. by rewrite fmap_app, concat_app. Qed.

Lemma plan_pngs_length table : length (plan_pngs table) = (3 * length table)%nat.
Proof.
  induction table as [|entry table IH]; [done|].
  change (plan_pngs (entry :: table)) with (plan_entry entry ++ plan_pngs table).
  rewrite length_app, IH. simpl. lia.
Qed.

(** The log of step 3: a prefix of its plan, complete exactly when the step
    completes, and with no write other than the intermediate and the
    container. *)
Lemma generate_ico_writes w r w' :
  generate_ico w = (r, w') →
  ∃ evs, extends w w' evs ∧
    evs ∈ [[]; take 1 plan_ico; take 3 plan_ico; take 4 plan_ico; plan_ico] ∧
    (r = Done tt ↔ evs = plan_ico).
Proof.
  intros Hrun. destruct (tracked_generate_ico _ _ _ Hrun) as [evs Hext].
  exists evs. split; [done|]. pose proof (ext_history _ _ _ Hext) as Hevs.
  destruct r as [[]|e].
  - apply generate_ico_done in Hrun as (src & img & _ & _ & _ & _ & _ & ->).
    simpl in Hevs. rewrite <- !app_assoc in Hevs. apply app_inv_head in Hevs as <-.
    split; [compute_done|done].
  - apply generate_ico_raised in Hrun
      as [Hsvg|[(w2 & Hsvg & _ & _ & ->)|(src & img & _ & _ & _ & _ & ->)]].
    + apply svg2png_raised_world in Hsvg as (_ & _ & _ & _ & [Hh|Hh] & _);
        rewrite Hh in Hevs.
      * rewrite <- (app_nil_r (history w)) in Hevs at 1.
        apply app_inv_head in Hevs as <-. split; [compute_done|done].
      * apply app_inv_head in Hevs as <-. split; [compute_done|done].
    + apply svg2png_done in Hsvg as (src & img & _ & _ & _ & ->).
      simpl in Hevs. rewrite <- !app_assoc in Hevs. apply app_inv_head in Hevs as <-.
      split; [compute_done|done].
    + simpl in Hevs. rewrite <- !app_assoc in Hevs. apply app_inv_head in Hevs as <-.
      split; [compute_done|done].
Qed.

(** The log of step 2: the plan of the entries completed, followed, when the
    pass for an entry failed, by an initial part of that pass, short of its
    print. *)
Lemma generate_pngs_log table w r w' :
  generate_pngs table w = (r, w') →
  ∃ done rest tail,
    table = done ++ rest ∧
    extends w w' (plan_pngs done ++ tail) ∧
    ((r = Done tt ∧ rest = [] ∧ tail = []) ∨
     (∃ e entry rest', r = Raised e ∧ rest = entry :: rest' ∧
        tail ∈ [[]; take 1 (plan_entry entry); take 2 (plan_entry entry)])).
Proof.
  intros Hrun. destruct (tracked_generate_pngs _ _ _ _ Hrun) as [evs Hext].
  pose proof (ext_history _ _ _ Hext) as Hevs.
  destruct r as [[]|e].
  - destruct (generate_pngs_done_history _ _ _ Hrun) as (Hhist & _ & _).
    rewrite Hhist in Hevs. apply app_inv_head in Hevs as <-.
    exists table, [], []. rewrite !app_nil_r. split; [done|]. split; [done|].
    by left.
  - destruct (generate_pngs_stops _ _ _ _ Hrun)
      as (done & name & size & rest & w1 & -> & Hdone & Hentry).
    destruct (generate_pngs_done_history _ _ _ Hdone) as (Hhist & _ & _).
    apply entry_raised_world in Hentry as (_ & _ & _ & _ & tail & Hw' & Hkind).
    rewrite Hhist, <- app_assoc in Hw'. rewrite Hw' in Hevs.
    apply app_inv_head in Hevs as <-.
    exists done, ((name, size) :: rest), tail.
    split; [done|]. split; [done|]. right. exists e, (name, size), rest.
    split; [done|]. split; [done|].
    rewrite !elem_of_cons.
    destruct Hkind as [(_ & ->)|(_ & _ & [->| ->])]; eauto 6.
Qed.

(** X1: the script completes exactly when the source is a text file whose
    markup renders at 16, 32, 180 and 256 pixels, none of the five output
    paths refuses a write, and the console takes the four confirmation lines
    one after the other. *)
Theorem X1_completes_iff fs locked takes :
  (∃ w', images_py (boot fs locked takes) = (Done tt, w')) ↔
  (∃ src,
     fs !! input_svg = Some (FText src) ∧
     is_Some (rasterize src 16 16) ∧ is_Some (rasterize src 32 32) ∧
     is_Some (rasterize src 180 180) ∧ is_Some (rasterize src 256 256) ∧
     (∀ path, path ∈ sizes.*1 ++ ["temp_256.png"; "favicon.ico"] →
        path ∉ locked) ∧
     takes_all takes []
       [ "Created favicon-16x16.png"; "Created favicon-32x32.png";
         "Created apple-touch-icon.png"; "Created favicon.ico" ] = true).
Proof.
  split.
  - intros [w' Hrun].
    apply images_py_done in Hrun
      as (src & i16 & i32 & i180 & i256 &
          (Hsrc & H16 & H32 & H180 & H256 & Hfree & Htakes) & _).
    exists src. repeat split; eauto.
    intros path Hin. rewrite Forall_forall in Hfree. by apply Hfree.
  - intros (src & Hsrc & [i16 H16] & [i32 H32] & [i180 H180] & [i256 H256]
            & Hfree & Htakes).
    eexists. apply (images_py_ok _ _ _ src i16 i32 i180 i256).
    repeat split; try done. apply Forall_forall. intros path Hin. by apply Hfree.
Qed.

(** X2: whatever the size table, a run that fails raises a render failure, a
    write failure or a console failure, never a pack failure: the image opened
    in step 3 is the PNG the script has just written.  A write failure means
    that one of the paths the script writes refuses writes; a console failure
    means that the console did not take one of the confirmation lines. *)
Theorem X2_failure_kinds table w e w' :
  script table w = (Raised e, w') →
  e = RenderFailure ∨
  (e = WriteFailure ∧
   ∃ path, path ∈ table.*1 ++ ["temp_256.png"; "favicon.ico"] ∧
           path ∈ unwritable w) ∨
  (e = ConsoleFailure ∧
   ∃ shown line,
     line ∈ (created <$> table.*1) ++ ["Created favicon.ico"] ∧
     console w shown line = false).
Proof.
  unfold script. intros Hrun.
  apply bind_inv in Hrun as [([] & w1 & Hpngs & Hico)|(e' & Hpngs & [= <-])].
  - destruct (generate_pngs_done_history _ _ _ Hpngs) as (_ & _ & Hlocked).
    destruct (tracked_generate_pngs _ _ _ _ Hpngs) as [evs1 Hext1].
    pose proof (ext_console _ _ _ Hext1) as Hconsole.
    apply generate_ico_raised in Hico
      as [Hsvg|[(w2 & _ & -> & Hin & _)|(src & img & _ & _ & -> & Hno & _)]].
    + apply svg2png_raised_world in Hsvg as (_ & _ & _ & _ & _ & [->|[-> Hin]]);
        [by left|right; left].
      split; [done|]. exists "temp_256.png". rewrite <- Hlocked. split; [|done].
      apply elem_of_app. right. compute_done.
    + right. left. split; [done|]. exists "favicon.ico". rewrite <- Hlocked.
      split; [|done]. apply elem_of_app. right. compute_done.
    + right. right. split; [done|]. exists (stdout w1), "Created favicon.ico".
      rewrite <- Hconsole. split; [|done]. apply elem_of_app. right.
      by apply list_elem_of_singleton.
  - destruct (generate_pngs_stops _ _ _ _ Hpngs)
      as (done & name & size & rest & w1 & -> & Hdone & Hentry).
    destruct (generate_pngs_done_history _ _ _ Hdone) as (_ & _ & Hlocked).
    destruct (tracked_generate_pngs _ _ _ _ Hdone) as [evs1 Hext1].
    pose proof (ext_console _ _ _ Hext1) as Hconsole.
    assert (name ∈ (done ++ (name, size) :: rest).*1) as Hname.
    { rewrite fmap_app. apply elem_of_app. right. simpl. by left. }
    apply entry_raised in Hentry as [Hsvg|(src & img & _ & _ & -> & Hno & _)].
    + apply svg2png_raised_world in Hsvg as (_ & _ & _ & _ & _ & [->|[-> Hin]]);
        [by left|right; left].
      split; [done|]. exists name. rewrite <- Hlocked. split; [|done].
      apply elem_of_app. by left.
    + right. right. split; [done|]. exists (stdout w1), (created name).
      rewrite <- Hconsole. split; [|done]. apply elem_of_app. left.
      apply list_elem_of_fmap. by exists name.
Qed.

(** X3: whatever the size table and whether or not the run completes, the
    script only adds to the console and to the log, leaves the write
    permissions as they are, removes no file, and changes no file other than
    those named in the table, the intermediate and the container. *)
Theorem X3_footprint table w r w' :
  script table w = (r, w') →
  unwritable w' = unwritable w ∧
  stdout w `prefix_of` stdout w' ∧
  history w `prefix_of` history w' ∧
  (∀ path, is_Some (files w !! path) → is_Some (files w' !! path)) ∧
  (∀ path, path ∉ table.*1 → path ≠ "temp_256.png" → path ≠ "favicon.ico" →
     files w' !! path = files w !! path).
Proof.
  intros Hrun. destruct (tracked_script _ _ _ _ Hrun) as [evs Hext].
  split; [apply (ext_unwritable _ _ _ Hext)|].
  split; [eexists; apply (ext_stdout _ _ _ Hext)|].
  split; [eexists; apply (ext_history _ _ _ Hext)|].
  split; [apply (ext_kept _ _ _ Hext)|].
  intros path Htable Htemp Hico. unfold script in Hrun.
  apply bind_inv in Hrun as [([] & w1 & Hpngs & Hrest)|(e & Hpngs & _)].
  - destruct (generate_pngs_writes _ _ _ _ Hpngs) as (evs1 & Hext1 & Hevs1).
    destruct (generate_ico_writes _ _ _ Hrest) as (evs2 & Hext2 & Hevs2 & _).
    rewrite (ext_frame _ _ _ Hext2), (ext_frame _ _ _ Hext1); [done|..].
    + intros Hin. by apply Htable, Hevs1.
    + intros Hin. clear Hext2.
      repeat (apply elem_of_cons in Hevs2 as [->|Hevs2]);
        [..|by apply elem_of_nil in Hevs2]; simpl in Hin;
        repeat (apply elem_of_cons in Hin as [->|Hin]);
        try done; by apply elem_of_nil in Hin.
  - destruct (generate_pngs_writes _ _ _ _ Hpngs) as (evs1 & Hext1 & Hevs1).
    apply (ext_frame _ _ _ Hext1). intros Hin. by apply Htable, Hevs1.
Qed.

(** A completed batch whose table names the source has left a PNG where the
    source was. *)
Lemma generate_pngs_overwrites_source table w w' :
  input_svg ∈ table.*1 →
  generate_pngs table w = (Done tt, w') →
  ∃ img, files w' !! input_svg = Some (FPng img).
Proof.
  revert w. induction table as [|[name size] table IH]; intros w Hin Hrun.
  - by apply elem_of_nil in Hin.
  - rewrite generate_pngs_cons in Hrun.
    apply bind_inv in Hrun as [([] & w1 & Hentry & Hrest)|(e' & _ & [=])].
    destruct (decide (input_svg ∈ table.*1)) as [Hlater|Hnot]; [by eapply IH|].
    simpl in Hin. apply elem_of_cons in Hin as [Hname|Hin]; [|done].
    apply entry_done in Hentry as (src & img & _ & _ & _ & _ & ->).
    destruct (generate_pngs_writes _ _ _ _ Hrest) as (evs & Hext & Hevs).
    exists img. rewrite (ext_frame _ _ _ Hext).
    + simpl. rewrite <- Hname. apply lookup_insert_eq.
    + intros Hbad. by apply Hnot, Hevs.
Qed.

(** X4: a size table that names the source file as one of its outputs can
    never run to completion: the entry replaces the source by a PNG, and no
    later call puts markup back, so a later render fails at the latest in
    step 3. *)
Theorem X4_source_as_output_never_completes table w r w' :
  input_svg ∈ table.*1 →
  script table w = (r, w') →
  ∃ e, r = Raised e.
Proof.
  intros Hin Hrun. destruct r as [[]|e]; [exfalso|by exists e].
  unfold script in Hrun.
  apply bind_inv in Hrun as [([] & w1 & Hpngs & Hico)|(e & _ & [=])].
  destruct (generate_pngs_overwrites_source _ _ _ Hin Hpngs) as [img Himg].
  apply generate_ico_done in Hico as (src & img' & Hsrc & _).
  rewrite Himg in Hsrc. discriminate.
Qed.

(** X5: for any size table with distinct names, none of them the source, a
    completed batch has printed one confirmation line per entry, in table
    order, and has left under each name the render, at the entry's size, of
    the source as it was before the batch; with a positive size the image has
    exactly that width and height. *)
Theorem X5_batch_outputs table w w' :
  NoDup table.*1 →
  input_svg ∉ table.*1 →
  generate_pngs table w = (Done tt, w') →
  stdout w' = stdout w ++ (created <$> table.*1) ∧
  ∀ name size, (name, size) ∈ table →
    ∃ src img,
      files w !! input_svg = Some (FText src) ∧
      rasterize src size size = Some img ∧
      files w' !! name = Some (FPng img) ∧
      (0 < size → width img = size ∧ height img = size).
Proof.
  intros Hdup Hsrc Hrun.
  destruct (generate_pngs_done_history _ _ _ Hrun) as (_ & Hout & _).
  split; [done|]. intros name size Hin.
  destruct (generate_pngs_done_files _ _ _ Hdup Hsrc Hrun _ _ Hin)
    as (src & img & Hfile & Himg & Hpng).
  exists src, img. split; [done|]. split; [done|]. split; [done|].
  intros Hpos. pose proof (rasterize_size _ _ _ _ Hpos Hpos Himg) as Hdims.
  by injection Hdims.
Qed.

(** X6: whatever the size table, the effects of a run are an initial segment
    of the plan (for each entry in order: read the source, write the entry,
    confirm it; then read the source, write the intermediate, read it back,
    write the container, confirm it), and the run completes exactly when it
    has performed the whole plan. *)
Theorem X6_log_prefix_of_plan table w r w' :
  script table w = (r, w') →
  ∃ evs,
    history w' = history w ++ evs ∧
    evs `prefix_of` plan table ∧
    (r = Done tt ↔ evs = plan table).
Proof.
  unfold script, plan. intros Hrun.
  apply bind_inv in Hrun as [([] & w1 & Hpngs & Hico)|(e & Hpngs & ->)].
  - destruct (generate_pngs_done_history _ _ _ Hpngs) as (Hhist1 & _ & _).
    destruct (generate_ico_writes _ _ _ Hico) as (evs2 & Hext2 & Hevs2 & Hdone).
    exists (plan_pngs table ++ evs2).
    split; [by rewrite (ext_history _ _ _ Hext2), Hhist1, app_assoc|].
    split.
    + apply prefix_app. clear Hext2 Hdone.
      repeat (apply elem_of_cons in Hevs2 as [->|Hevs2]);
        [..|by apply elem_of_nil in Hevs2]; by eexists.
    + rewrite Hdone. split; [by intros ->|]. by intros ?%app_inv_head.
  - destruct (generate_pngs_log _ _ _ _ Hpngs)
      as (before & rest & tail & -> & Hext &
          [([=] & _)|(e' & entry & rest' & _ & -> & Htail)]).
    exists (plan_pngs before ++ tail). split; [apply (ext_history _ _ _ Hext)|].
    rewrite plan_pngs_app, <- app_assoc.
    change (plan_pngs (entry :: rest'))
      with (plan_entry entry ++ plan_pngs rest').
    rewrite !elem_of_cons, elem_of_nil in Htail. split.
    + apply prefix_app. rewrite <- app_assoc.
      destruct Htail as [->|[->|[->|[]]]]; by eexists.
    + split; [done|]. intros Heq%app_inv_head. exfalso.
      apply (f_equal length) in Heq. revert Heq.
      rewrite !length_app.
      destruct Htail as [->|[->|[->|[]]]]; simpl; lia.
Qed.

End Proofs.

(** ** Runs of the sample instance *)

(** The sample instance honours the size contracts. *)
Lemma sample_contract : ImagingContract sample_imaging.
Proof.
  split.
  - intros src w h img _ _. simpl. destruct (String.prefix _ _); [|done].
    by intros [= <-].
  - done.
Qed.

Local Ltac run_sample := vm_compute; reflexivity.

(** A run in a directory where everything can be written, on a console that
    takes every line, completes, with the four confirmation lines shown. *)
Example sample_run_completes :
  (images_py (boot sample_fs ∅ open_console)).1 = Done tt ∧
  stdout (images_py (boot sample_fs ∅ open_console)).2 =
    [ "Created favicon-16x16.png"; "Created favicon-32x32.png";
      "Created apple-touch-icon.png"; "Created favicon.ico" ].
Proof. split; run_sample. Qed.

(** A run that cannot write the container stops after the intermediate has
    been written: three lines on the console, the intermediate on disk, no
    container. *)
Example sample_run_without_ico :
  (images_py (boot sample_fs {[ "favicon.ico" ]} open_console)).1
    = Raised WriteFailure ∧
  stdout (images_py (boot sample_fs {[ "favicon.ico" ]} open_console)).2 =
    [ "Created favicon-16x16.png"; "Created favicon-32x32.png";
      "Created apple-touch-icon.png" ] ∧
  files (images_py (boot sample_fs {[ "favicon.ico" ]} open_console)).2
    !! "temp_256.png" =
    Some (FPng (Raster 256 256 ("<svg viewBox='0 0 512 512'/>", 256))) ∧
  files (images_py (boot sample_fs {[ "favicon.ico" ]} open_console)).2
    !! "favicon.ico" = None.
Proof. repeat split; run_sample. Qed.

(** Markup that is not SVG stops the run at the first render. *)
Example sample_run_malformed :
  images_py (boot {[ "favicon.svg" := FText "not markup" ]} ∅ open_console) =
  (Raised RenderFailure,
   log (Read "favicon.svg")
     (boot {[ "favicon.svg" := FText "not markup" ]} ∅ open_console)).
Proof. reflexivity. Qed.

(** On a console that takes nothing the run stops at its first print: the
    first favicon is on disk, nothing is shown, and the print is the last
    thing the script asked for. *)
Example sample_run_console_closed :
  (images_py (boot sample_fs ∅ closed_console)).1 = Raised ConsoleFailure ∧
  stdout (images_py (boot sample_fs ∅ closed_console)).2 = [] ∧
  history (images_py (boot sample_fs ∅ closed_console)).2 =
    [ Read "favicon.svg"; Write "favicon-16x16.png" ] ∧
  attempts (images_py (boot sample_fs ∅ closed_console)).2 =
    [ Read "favicon.svg"; Write "favicon-16x16.png";
      Print "Created favicon-16x16.png" ] ∧
  files (images_py (boot sample_fs ∅ closed_console)).2 !! "favicon-16x16.png" =
    Some (FPng (Raster 16 16 ("<svg viewBox='0 0 512 512'/>", 16))) ∧
  lines_naming "favicon-16x16.png"
    (stdout (images_py (boot sample_fs ∅ closed_console)).2) = 0%nat.
Proof. repeat split; run_sample. Qed.

(** The encoder drops the sizes a small image cannot provide. *)
Example small_image_frames :
  dims <$> ico_frames (Raster 32 32 ("<svg/>", 32))
             [(16,16); (32,32); (48,48); (256,256)]
  = [(16,16); (32,32)].
Proof. reflexivity. Qed.

Example mentions_confirmation :
  mentions "favicon.ico" "Created favicon.ico" = true ∧
  mentions "temp_256.png" "Created favicon.ico" = false ∧
  mentions "favicon.ico" "Created favicon-16x16.png" = false.
Proof. repeat split; reflexivity. Qed.

Lemma C1_witness :
  ∃ w1, generate_pngs sizes (boot sample_fs ∅ open_console) = (Done tt, w1) ∧
    ((∀ name size, (name, size) ∈ sizes →
        ∃ img, files w1 !! name = Some (FPng img) ∧
               width img = size ∧ height img = size) ∧
     written (history w1) =
       ["favicon-16x16.png"; "favicon-32x32.png"; "apple-touch-icon.png"] ∧
     (∀ path, path ∉ sizes.*1 → files w1 !! path = sample_fs !! path)).
Proof.
  eexists. split; [run_sample|].
  apply (C1_batch_rasterize_sizes (contract := sample_contract)
           sample_fs ∅ open_console).
  run_sample.
Defined.

Lemma C2_witness :
  ∃ w', script [("icon-64.png", 64)] (boot sample_fs ∅ open_console)
          = (Done tt, w') ∧
    ∃ frames,
      files w' !! "favicon.ico" = Some (FIco frames) ∧
      dims <$> frames = [(16,16); (32,32); (48,48); (256,256)].
Proof.
  eexists. split; [run_sample|].
  apply (C2_ico_resolutions_fixed (contract := sample_contract)
           [("icon-64.png", 64)] sample_fs ∅ open_console).
  run_sample.
Defined.

Lemma C3_witness :
  images_py (boot (pixels := string * Z) ∅ ∅ open_console)
    = (Raised RenderFailure, tried (Read input_svg) (boot ∅ ∅ open_console)) ∧
  ∃ w', generate_pngs sizes (boot sample_fs ∅ one_line_console)
          = (Raised ConsoleFailure, w') ∧
    ∃ done name size rest asked tail,
      sizes = done ++ (name, size) :: rest ∧
      images_py (boot sample_fs ∅ one_line_console)
        = (Raised ConsoleFailure, w') ∧
      stdout w' = created <$> done.*1 ∧
      attempts w' = plan_pngs done ++ asked ∧
      history w' = plan_pngs done ++ tail ∧
      ((ConsoleFailure = RenderFailure ∧ asked = [Read input_svg] ∧
        (tail = [] ∨ tail = [Read input_svg])) ∨
       (ConsoleFailure = WriteFailure ∧ asked = [Read input_svg; Write name] ∧
        tail = [Read input_svg]) ∨
       (ConsoleFailure = ConsoleFailure ∧
        asked = [Read input_svg; Write name; Print (created name)] ∧
        tail = [Read input_svg; Write name])) ∧
      (∀ n s, (n, s) ∈ done →
         ∃ img, files w' !! n = Some (FPng img) ∧ dims img = (s, s)) ∧
      (∀ path, path ∉ done.*1 → path ≠ name →
         files w' !! path = sample_fs !! path) ∧
      (ConsoleFailure ≠ ConsoleFailure → files w' !! name = sample_fs !! name).
Proof.
  split.
  - apply (proj1 (C3_failure_stops_run (contract := sample_contract)
                    ∅ ∅ open_console)).
    reflexivity.
  - eexists. split; [run_sample|].
    apply (proj2 (C3_failure_stops_run (contract := sample_contract)
                    sample_fs ∅ one_line_console)).
    run_sample.
Defined.

Lemma C4_witness :
  ∃ w', images_py (boot sample_fs ∅ open_console) = (Done tt, w') ∧
    history w' =
      [ Read "favicon.svg"; Write "favicon-16x16.png";
        Print "Created favicon-16x16.png";
        Read "favicon.svg"; Write "favicon-32x32.png";
        Print "Created favicon-32x32.png";
        Read "favicon.svg"; Write "apple-touch-icon.png";
        Print "Created apple-touch-icon.png";
        Read "favicon.svg"; Write "temp_256.png";
        Read "temp_256.png"; Write "favicon.ico";
        Print "Created favicon.ico" ] ∧
    stdout w' =
      [ "Created favicon-16x16.png"; "Created favicon-32x32.png";
        "Created apple-touch-icon.png"; "Created favicon.ico" ].
Proof.
  eexists. split; [run_sample|].
  apply (C4_sequential_order sample_fs ∅ open_console). run_sample.
Defined.

(** C5, as stated, fails: a completed run writes "temp_256.png", the file is
    on disk at the end, and no console line names it. *)
Lemma C5_counterexample :
  ∃ w, images_py (boot sample_fs ∅ open_console) = (Done tt, w) ∧
       "temp_256.png" ∈ written (history w) ∧
       is_Some (files w !! "temp_256.png") ∧
       lines_naming "temp_256.png" (stdout w) = 0%nat.
Proof.
  eexists. split; [run_sample|].
  split; [compute_done|]. split; [|reflexivity].
  vm_compute. eauto.
Qed.

Lemma C5_witness :
  ∃ w', images_py (boot sample_fs ∅ one_line_console)
          = (Raised ConsoleFailure, w') ∧
    (Raised (A := unit) ConsoleFailure ≠ Raised ConsoleFailure →
     ∀ path, path ∈ written (history w') → path ≠ "temp_256.png" →
       lines_naming path (stdout w') = 1%nat) ∧
    (Raised (A := unit) ConsoleFailure = Raised ConsoleFailure →
     ∃ before last,
       written (history w') = before ++ [last] ∧
       lines_naming last (stdout w') = 0%nat ∧
       ∀ path, path ∈ before → path ≠ "temp_256.png" →
         lines_naming path (stdout w') = 1%nat) ∧
    lines_naming "temp_256.png" (stdout w') = 0%nat.
Proof.
  eexists. split; [run_sample|].
  apply (C5_one_line_per_published_output sample_fs ∅ one_line_console
           (Raised ConsoleFailure)).
  run_sample.
Defined.

Lemma C6_witness :
  ∃ w1 w2,
    images_py (boot sample_fs ∅ open_console) = (Done tt, w1) ∧
    images_py (boot sample_fs_cluttered ∅ open_console) = (Done tt, w2) ∧
    (∀ path, path ∈ written (history w1) → files w2 !! path = files w1 !! path) ∧
    ∃ w3, images_py (boot (files w1) (unwritable w1) (console w1)) = (Done tt, w3) ∧
          files w3 = files w1.
Proof.
  eexists. eexists. split; [run_sample|]. split; [run_sample|].
  lazymatch goal with
  | |- (∀ path, _ → _ = files ?w1 !! path) ∧ _ =>
      destruct (C6_rendering_deterministic (lib := sample_imaging)
                  sample_fs ∅ open_console w1)
        as [Hsame Hagain]; [run_sample|]
  end.
  split; [|exact Hagain].
  apply (Hsame sample_fs_cluttered ∅ open_console); [reflexivity|run_sample].
Defined.

Lemma C7_witness :
  ∃ w', images_py (boot sample_fs ∅ open_console) = (Done tt, w') ∧
    ("temp_256.png" ∉ sizes.*1) ∧
    (Done tt = Done tt → "temp_256.png" ∈ written (history w')) ∧
    ("temp_256.png" ∈ written (history w') →
     ∃ src img,
       sample_fs !! input_svg = Some (FText src) ∧
       rasterize src 256 256 = Some img ∧
       width img = 256 ∧ height img = 256 ∧
       files w' !! "temp_256.png" = Some (FPng img)).
Proof.
  eexists. split; [run_sample|].
  apply (C7_temp_render_persists (contract := sample_contract)
           sample_fs ∅ open_console).
  run_sample.
Defined.

Lemma C8_witness :
  ∃ w', images_py (boot sample_fs_cluttered ∅ open_console) = (Done tt, w') ∧
    files w' !! input_svg = sample_fs_cluttered !! input_svg ∧
    NoDup (written (history w')) ∧
    (∀ path, path ∈ written (history w') → is_Some (files w' !! path)) ∧
    (∀ path, is_Some (sample_fs_cluttered !! path) → is_Some (files w' !! path)) ∧
    (∀ path, path ∉ written (history w') →
       files w' !! path = sample_fs_cluttered !! path) ∧
    (Done tt = Done tt →
     written (history w') =
       ["favicon-16x16.png"; "favicon-32x32.png"; "apple-touch-icon.png";
        "temp_256.png"; "favicon.ico"]).
Proof.
  eexists. split; [run_sample|].
  apply (C8_source_read_only_outputs_written_once
           sample_fs_cluttered ∅ open_console).
  run_sample.
Defined.

Lemma C9_witness :
  ∃ w', images_py (boot sample_fs ∅ open_console) = (Done tt, w') ∧
    ∃ img,
      files w' !! "temp_256.png" = Some (FPng img) ∧
      dims img = (256, 256) ∧
      files w' !! "favicon.ico" =
        Some (FIco [thumbnail img (16,16); thumbnail img (32,32);
                    thumbnail img (48,48); img]) ∧
      dims <$> [thumbnail img (16,16); thumbnail img (32,32); thumbnail img (48,48)]
        = [(16,16); (32,32); (48,48)] ∧
      ∃ before,
        history w' =
          before ++ [Write "temp_256.png"; Read "temp_256.png";
                     Write "favicon.ico"; Print "Created favicon.ico"].
Proof.
  eexists. split; [run_sample|].
  apply (C9_container_from_temp (contract := sample_contract)
           sample_fs ∅ open_console).
  run_sample.
Defined.

Lemma C10_witness :
  ∃ w', images_py (boot sample_fs sample_locked open_console)
          = (Raised WriteFailure, w') ∧
    ∀ name,
      (created name ∈ stdout w' →
       name ∈ written (history w') ∧ is_Some (files w' !! name)) ∧
      (∀ i, history w' !! i = Some (Print (created name)) →
         ∃ j, (j < i)%nat ∧ history w' !! j = Some (Write name)).
Proof.
  eexists. split; [run_sample|].
  apply (C10_confirmation_follows_write sample_fs sample_locked open_console
           (Raised WriteFailure)).
  run_sample.
Defined.

(** ** Runs of the sample instance with other size tables *)

Lemma X2_witness :
  ∃ w', script sizes (boot sample_fs ∅ closed_console)
          = (Raised ConsoleFailure, w') ∧
    (ConsoleFailure = RenderFailure ∨
     (ConsoleFailure = WriteFailure ∧
      ∃ path, path ∈ sizes.*1 ++ ["temp_256.png"; "favicon.ico"] ∧
              path ∈ unwritable (boot (pixels := string * Z)
                                   sample_fs ∅ closed_console)) ∨
     (ConsoleFailure = ConsoleFailure ∧
      ∃ shown line,
        line ∈ (created <$> sizes.*1) ++ ["Created favicon.ico"] ∧
        console (boot (pixels := string * Z) sample_fs ∅ closed_console)
          shown line = false)).
Proof.
  eexists. split; [run_sample|].
  eapply (X2_failure_kinds (lib := sample_imaging) sizes
            (boot sample_fs ∅ closed_console) ConsoleFailure).
  run_sample.
Defined.

Lemma X3_witness :
  ∃ w', script [("icon-64.png", 64)]
          (boot sample_fs_cluttered sample_locked open_console)
          = (Done tt, w') ∧
    unwritable w' = sample_locked ∧
    [] `prefix_of` stdout w' ∧
    [] `prefix_of` history w' ∧
    (∀ path, is_Some (sample_fs_cluttered !! path) → is_Some (files w' !! path)) ∧
    (∀ path, path ∉ [("icon-64.png", 64)].*1 →
       path ≠ "temp_256.png" → path ≠ "favicon.ico" →
       files w' !! path = sample_fs_cluttered !! path).
Proof.
  eexists. split; [run_sample|].
  apply (X3_footprint (lib := sample_imaging) [("icon-64.png", 64)]
           (boot sample_fs_cluttered sample_locked open_console) (Done tt)).
  run_sample.
Defined.

Lemma X4_witness :
  ∃ r w', script [("favicon.svg", 64)] (boot sample_fs ∅ open_console) = (r, w') ∧
    input_svg ∈ [("favicon.svg", 64)].*1 ∧
    ∃ e, r = Raised e.
Proof.
  eexists. eexists. split; [run_sample|].
  assert (input_svg ∈ [("favicon.svg", 64)].*1) as Hin by compute_done.
  split; [exact Hin|].
  eapply (X4_source_as_output_never_completes (lib := sample_imaging)
            [("favicon.svg", 64)] (boot sample_fs ∅ open_console) _ _ Hin).
  run_sample.
Defined.

Lemma X5_witness :
  ∃ w', generate_pngs [("a.png", 24); ("b.png", 48)]
          (boot sample_fs ∅ open_console) = (Done tt, w') ∧
    stdout w' = [] ++ (created <$> [("a.png", 24); ("b.png", 48)].*1) ∧
    ∀ name size, (name, size) ∈ [("a.png", 24); ("b.png", 48)] →
      ∃ src img,
        sample_fs !! input_svg = Some (FText src) ∧
        rasterize src size size = Some img ∧
        files w' !! name = Some (FPng img) ∧
        (0 < size → width img = size ∧ height img = size).
Proof.
  eexists. split; [run_sample|].
  apply (X5_batch_outputs (contract := sample_contract)
           [("a.png", 24); ("b.png", 48)] (boot sample_fs ∅ open_console));
    [compute_done | compute_done | run_sample].
Defined.

Lemma X6_witness :
  ∃ w', script sizes (boot sample_fs ∅ closed_console)
          = (Raised ConsoleFailure, w') ∧
    ∃ evs,
      history w' = [] ++ evs ∧
      evs `prefix_of` plan sizes ∧
      (Raised ConsoleFailure = Done tt ↔ evs = plan sizes).
Proof.
  eexists. split; [run_sample|].
  apply (X6_log_prefix_of_plan (lib := sample_imaging) sizes
           (boot sample_fs ∅ closed_console) (Raised ConsoleFailure)).
  run_sample.
Defined.
